(** * Pingu: the monitoring core (core/state.py, core/ping.py,
    core/monitor.py, core/config.py)

    A shallow embedding of the outage state machine, the ping prober, the
    per-target scheduler and the target records, with the properties of
    the specification stated and proved over it.  Of the window
    (gui/main_window.py) only what it writes into the monitor state is
    embedded.

    Modelling conventions.
    - Python [str] is [string], read as ASCII text: [lower], [upper] and
      case-insensitive matching map the ASCII letters, [\d] is the ASCII
      digits and [\s] the whitespace code points below 128; a character
      from 128 on is an ordinary character that is none of these.
    - Python [int] is [Z].  A Python [float] is the rational it denotes
      ([Q]).  The harness bound of [run_ping] is computed with binary64
      rounding ([b64_round]); latencies are the rationals their decimal
      texts denote.
    - The monitor state and its target objects are shared and mutable:
      the semaphore is a field of the state that is created once, and a
      task reads the alias of its own target anew at every cycle.
    - [await] points are sequential calls; what the operating system does
      (the subprocess, the clock, the random jitter) is an explicit
      environment argument. *)

From Stdlib Require Import ZArith QArith Qround Qabs Lqa Bool List Ascii String Lia.
From Stdlib Require Import DecimalString.
From stdpp Require Import base option gmap strings.

Import ListNotations.
Local Open Scope string_scope.
Local Open Scope Z_scope.

(** ** core/state.py *)

Inductive State : Type := UP | DOWN.

Definition State_eqb (a b : State) : bool :=
  match a, b with
  | UP, UP | DOWN, DOWN => true
  | _, _ => false
  end.

(** The lock of [OutageState] serialises callers; in the sequential model
    only the [_state] field remains. *)
Record OutageState : Type := mkOutageState { _state : State }.

(** [OutageState.__init__] *)
Definition OutageState_init : OutageState := mkOutageState UP.

(** [record_success]: the returned pair and the object after the call. *)
Definition record_success (o : OutageState) : (State * bool) * OutageState :=
  let prev := _state o in
  if State_eqb prev DOWN
  then ((DOWN, true), mkOutageState UP)
  else ((prev, false), mkOutageState UP).

(** [record_failure] *)
Definition record_failure (o : OutageState) : (State * bool) * OutageState :=
  let prev := _state o in
  if State_eqb prev UP
  then ((UP, true), mkOutageState DOWN)
  else ((DOWN, false), mkOutageState DOWN).

Definition get_state_sync (o : OutageState) : State := _state o.

(** A call on one [OutageState], and the replay of a sequence of calls. *)
Inductive call : Type := Failure | Success.

Definition do_call (c : call) (o : OutageState) : (State * bool) * OutageState :=
  match c with
  | Failure => record_failure o
  | Success => record_success o
  end.

(** One entry per call: the state before it, the call, what it returned. *)
Record call_log : Type := mkLog {
  log_before : State;
  log_call : call;
  log_prev : State;
  log_flag : bool
}.

Fixpoint replay (o : OutageState) (cs : list call) : list call_log :=
  match cs with
  | [] => []
  | c :: cs' =>
      let '((prev, flag), o') := do_call c o in
      mkLog (_state o) c prev flag :: replay o' cs'
  end.

(** What the specification says a call returns, from the state before it. *)
Definition flag_expected (before : State) (c : call) : bool :=
  match c, before with
  | Failure, UP => true
  | Failure, DOWN => false
  | Success, DOWN => true
  | Success, UP => false
  end.

Definition log_ok (l : call_log) : Prop :=
  log_prev l = log_before l /\ log_flag l = flag_expected (log_before l) (log_call l).

(** ** Strings, integers and floats as Python has them *)

Definition ascii_code (c : ascii) : N := N_of_ascii c.

Definition is_digit (c : ascii) : bool :=
  (48 <=? ascii_code c)%N && (ascii_code c <=? 57)%N.

(** [\s] on [str]: tab, newline, vertical tab, form feed, carriage return,
    the separators 0x1c-0x1f, and space. *)
Definition is_space (c : ascii) : bool :=
  let n := ascii_code c in
  ((9 <=? n)%N && (n <=? 13)%N) || ((28 <=? n)%N && (n <=? 32)%N).

Definition is_upper (c : ascii) : bool :=
  (65 <=? ascii_code c)%N && (ascii_code c <=? 90)%N.

Definition is_lower (c : ascii) : bool :=
  (97 <=? ascii_code c)%N && (ascii_code c <=? 122)%N.

Definition lower_char (c : ascii) : ascii :=
  if is_upper c then ascii_of_N (ascii_code c + 32) else c.

Definition upper_char (c : ascii) : ascii :=
  if is_lower c then ascii_of_N (ascii_code c - 32) else c.

Fixpoint map_string (f : ascii -> ascii) (s : string) : string :=
  match s with
  | EmptyString => EmptyString
  | String c s' => String (f c) (map_string f s')
  end.

(** [str.lower] and [str.upper], on the letters a-z and A-Z: the two
    methods on text in ASCII. *)
Definition lower (s : string) : string := map_string lower_char s.
Definition upper (s : string) : string := map_string upper_char s.

(** [needle in hay] *)
Fixpoint contains (needle hay : string) : bool :=
  String.prefix needle hay ||
  match hay with
  | EmptyString => false
  | String _ hay' => contains needle hay'
  end.

(** [str(n)] for an [int] *)
Definition str_of_Z (n : Z) : string :=
  DecimalString.NilZero.string_of_int (Z.to_int n).

(** [float(t)] on the texts group 1 of the latency patterns can hold:
    digits with at most one dot and at least one digit; anything else is
    [ValueError], here [None]. *)
Fixpoint digits_value (acc : Z) (s : string) : option (Z * nat) :=
  match s with
  | EmptyString => Some (acc, 0%nat)
  | String c s' =>
      if is_digit c
      then match digits_value (10 * acc + Z.of_N (ascii_code c - 48)) s' with
           | Some (v, n) => Some (v, S n)
           | None => None
           end
      else None
  end.

Fixpoint split_dot (s : string) : string * option string :=
  match s with
  | EmptyString => (EmptyString, None)
  | String c s' =>
      if Ascii.eqb c "."%char then (EmptyString, Some s')
      else let '(a, b) := split_dot s' in (String c a, b)
  end.

Definition float_of_str (t : string) : option Q :=
  let '(ip, fp) := split_dot t in
  let fp' := match fp with Some f => f | None => EmptyString end in
  match digits_value 0 ip with
  | Some (iv, ni) =>
      match digits_value iv fp' with
      | Some (v, nf) =>
          if (ni + nf =? 0)%nat then None
          else Some (v # Z.to_pos (10 ^ Z.of_nat nf))
      | None => None
      end
  | None => None
  end.

(** Round half to even, as [round] and the [.0f] format do. *)
Definition round_half_even (q : Q) : Z :=
  let f := Qfloor q in
  let d := (q - inject_Z f)%Q in
  match (d ?= 1 # 2)%Q with
  | Lt => f
  | Gt => f + 1
  | Eq => if Z.even f then f else f + 1
  end.

(** [round(x, 1)]: the multiple of 1/10 nearest to [x], the even one of
    two equally near.  The float the code gets is the one written with
    that one decimal, which stands here for the decimal itself, as in
    [float_of_str]. *)
Definition round1 (x : Q) : Q := (round_half_even (x * 10) # 10)%Q.

(** [f"{x:.0f}"]: the sign, then the rounded magnitude. *)
Definition fmt_0f (x : Q) : string :=
  if Qle_bool 0 x then str_of_Z (round_half_even x)
  else "-" ++ str_of_Z (round_half_even (- x)).

(** ** The fragment of [re] that the latency patterns use

    A backtracking matcher in continuation style.  Quantifiers are greedy
    and give back one item at a time; [re_search] tries every start
    position from the left.  Group 1 takes part in every match of the two
    patterns below, so a match is represented by its text. *)

Inductive regex : Type :=
| Eps
| Chr (p : ascii -> bool)
| Cat (r1 r2 : regex)
| Opt (r : regex)
| Star (p : ascii -> bool)
| Group (r : regex).

Fixpoint star_match {A : Type} (p : ascii -> bool) (s : string)
    (k : string -> option A) : option A :=
  match s with
  | String c s' =>
      if p c
      then match star_match p s' k with
           | Some x => Some x
           | None => k s
           end
      else k s
  | EmptyString => k s
  end.

Fixpoint re_match (r : regex) (s : string) (g : option string)
    (k : string -> option string -> option string) : option string :=
  match r with
  | Eps => k s g
  | Chr p =>
      match s with
      | String c s' => if p c then k s' g else None
      | EmptyString => None
      end
  | Cat r1 r2 => re_match r1 s g (fun s' g' => re_match r2 s' g' k)
  | Opt r1 =>
      match re_match r1 s g k with
      | Some x => Some x
      | None => k s g
      end
  | Star p => star_match p s (fun s' => k s' g)
  | Group r1 =>
      re_match r1 s g
        (fun s' _ => k s' (Some (substring 0 (String.length s - String.length s') s)))
  end.

(** [re.search(r, s)], returning [m.group(1)]. *)
Fixpoint re_search (r : regex) (s : string) : option string :=
  match re_match r s None (fun _ g => g) with
  | Some t => Some t
  | None =>
      match s with
      | String _ s' => re_search r s'
      | EmptyString => None
      end
  end.

Definition char_is (ignore_case : bool) (c : ascii) : ascii -> bool :=
  fun x => if ignore_case then Ascii.eqb (lower_char x) (lower_char c)
           else Ascii.eqb x c.

Fixpoint lit (ignore_case : bool) (s : string) : regex :=
  match s with
  | EmptyString => Eps
  | String c s' => Cat (Chr (char_is ignore_case c)) (lit ignore_case s')
  end.

Definition eq_or_colon (c : ascii) : bool :=
  Ascii.eqb c "="%char || Ascii.eqb c ":"%char.

Definition digit_or_dot (c : ascii) : bool :=
  is_digit c || Ascii.eqb c "."%char.

(** [([\d.]+)] *)
Definition number_group : regex := Group (Cat (Chr digit_or_dot) (Star digit_or_dot)).

(** [r"time[=:]?\s*([\d.]+)\s*ms"] with [re.I] *)
Definition re_time : regex :=
  Cat (lit true "time")
    (Cat (Opt (Chr eq_or_colon))
      (Cat (Star is_space)
        (Cat number_group
          (Cat (Star is_space) (lit true "ms"))))).

(** [r"([\d.]+)\s*ms"] *)
Definition re_bare : regex :=
  Cat number_group (Cat (Star is_space) (lit false "ms")).

(** ** core/ping.py *)

Record PingResult : Type := mkPingResult {
  success : bool;
  latency_ms : option Q;
  reason : string
}.

Definition _timeout_seconds (timeout_ms : Z) : Z :=
  Z.max 1 ((timeout_ms + 999) / 1000).

(** [_parse_latency]: each [try] falls through on [ValueError]. *)
Definition _parse_latency (output : string) : option Q :=
  let first :=
    match re_search re_time output with
    | Some t => float_of_str t
    | None => None
    end in
  match first with
  | Some x => Some x
  | None =>
      match re_search re_bare output with
      | Some t => float_of_str t
      | None => None
      end
  end.

Definition _interpret (returncode : Z) (output : string) (elapsed_ms : Q)
    (timeout_ms : Z) : PingResult :=
  if returncode =? 0 then
    let lat := _parse_latency output in
    mkPingResult true
      (Some (match lat with Some l => l | None => round1 elapsed_ms end)) "OK"
  else
    let output_lower := lower output in
    let reason :=
      if contains "timed out" output_lower || contains "timeout" output_lower
         || contains "request timed out" output_lower
      then "TIMEOUT"
      else if contains "unreachable" output_lower then "UNREACHABLE"
      else "ERROR:" ++ str_of_Z returncode in
    mkPingResult false None reason.

(** Exceptions, by how the two [except] clauses of [run_ping] see them. *)
Inductive exn : Type :=
| TimeoutError
    (** [asyncio.TimeoutError] or a subclass *)
| ExceptionSub (type_name : string) (returncode_attr : option string)
    (** any other subclass of [Exception]: [type(e).__name__] and, when the
        object has one, the text of its [returncode] attribute *)
| BaseExceptionSub (type_name : string)
    (** outside [Exception]: [CancelledError], [KeyboardInterrupt], ... *).

Inductive outcome (A : Type) : Type :=
| Returned (a : A)
| Raised (e : exn).
Arguments Returned {A} a.
Arguments Raised {A} e.

(** What the body of the [try] meets: the subprocess is spawned, ends
    within the bound, and leaves a return code ([None] read as 0 by
    [proc.returncode or 0]), the decoded standard output and the measured
    time; or one of the awaited calls raises. *)
Inductive subprocess_step : Type :=
| Communicated (returncode : option Z) (stdout : string) (elapsed_ms : Q)
| Throws (e : exn).

(** The operating system, as a function of the command line and of the
    bound given to [asyncio.wait_for]. *)
Definition os_model : Type := list string -> Q -> subprocess_step.

(** Binary64 arithmetic, as far as the bound of the harness needs it.
    [Qpow2 e] is 2^e; [Qlog2_floor q] the binary exponent of a positive
    rational; [b64_round] rounds to the nearest number with a 53-bit
    significand, ties to even, with the fixed step 2^-1074 below the
    normal range; the result is in lowest terms. *)
Definition Qpow2 (e : Z) : Q :=
  if 0 <=? e then inject_Z (2 ^ e) else 1 # Z.to_pos (2 ^ (- e)).

Definition Qlog2_floor (q : Q) : Z :=
  let e0 := Z.log2 (Qnum q) - Z.log2 (Zpos (Qden q)) in
  if Qle_bool (Qpow2 e0) q then e0 else e0 - 1.

Definition b64_round (q : Q) : Q :=
  if Qeq_bool q 0 then 0%Q
  else
    let m := Qabs q in
    let u := Qpow2 (Z.max (Qlog2_floor m - 52) (-1074)) in
    let r := Qred (inject_Z (round_half_even (m / u)) * u) in
    if Qle_bool 0 q then r else (- r)%Q.

(** The conversion of an [int] to a [float] raises OverflowError when the
    integer rounds to 2^1024 or beyond. *)
Definition float_of_int_overflows (n : Z) : bool :=
  2 ^ 1024 - 2 ^ 970 <=? Z.abs n.

(** [float(n)] where it is defined. *)
Definition float_of_int (n : Z) : Q := b64_round (inject_Z n).

(** The timeouts for which the lines of [run_ping] before the [try] raise
    OverflowError to the caller: [timeout_ms / 1000.0] on Windows and
    [timeout_s + 2.0] elsewhere convert an integer beyond the float
    range.  Nothing is spawned then. *)
Definition pre_try_raises (win32 : bool) (timeout_ms : Z) : bool :=
  float_of_int_overflows
    (if win32 then timeout_ms else _timeout_seconds timeout_ms).

(** The lines of [run_ping] before the [try]: the command and the bound,
    in binary64 arithmetic.  They describe the timeouts for which
    [pre_try_raises] is false; for the others the code has raised before
    the bound exists. *)
Definition ping_command (win32 : bool) (host : string) (timeout_ms : Z)
    : list string * Q :=
  if win32 then
    (["ping"; "-n"; "1"; "-w"; str_of_Z timeout_ms; host],
     b64_round (b64_round (float_of_int timeout_ms / 1000) + 2))
  else
    let timeout_s := _timeout_seconds timeout_ms in
    (["ping"; "-c"; "1"; "-W"; str_of_Z timeout_s; host],
     b64_round (float_of_int timeout_s + 2)).

Definition getattr_returncode (e_name : string) (attr : option string) : string :=
  match attr with
  | Some r => r
  | None => e_name
  end.

(** [run_ping], from the [try] on; see [pre_try_raises] for the timeouts
    that do not get there. *)
Definition run_ping (win32 : bool) (os : os_model) (host : string)
    (timeout_ms : Z) : outcome PingResult :=
  let '(cmd, timeout_s) := ping_command win32 host timeout_ms in
  match os cmd timeout_s with
  | Communicated rc stdout elapsed_ms =>
      Returned (_interpret (match rc with Some c => c | None => 0 end)
                           stdout elapsed_ms timeout_ms)
  | Throws TimeoutError =>
      Returned (mkPingResult false None "TIMEOUT")
  | Throws (ExceptionSub name attr) =>
      Returned (mkPingResult false None ("ERROR:" ++ getattr_returncode name attr))
  | Throws (BaseExceptionSub name) =>
      Raised (BaseExceptionSub name)
  end.

(** A call of [run_ping] as its caller sees it: the lines before the
    [try], where converting a timeout beyond the float range raises
    OverflowError outside every handler, then the [try] block. *)
Definition run_ping_call (win32 : bool) (os : os_model) (host : string)
    (timeout_ms : Z) : outcome PingResult :=
  if pre_try_raises win32 timeout_ms
  then Raised (ExceptionSub "OverflowError" None)
  else run_ping win32 os host timeout_ms.

(** ** core/config.py: [TargetConfig] *)

Record TargetConfig : Type := mkTarget {
  alias : string;
  host : string;
  interval : Z;
  timeout : Z;
  enabled : bool
}.

(** ** core/monitor.py *)

Record MonitorUpdate : Type := mkUpdate {
  u_alias : string;
  u_host : string;
  u_line : string;
  u_success : bool;
  u_detail : string;
  u_display_mode : string
}.

Definition detail_for_display (succ : bool) (detail : string)
    (display_mode : string) : string :=
  if String.eqb display_mode "codes" then
    if succ then "200"
    else if contains "TIMEOUT" (upper detail) then "408"
    else "503"
  else detail.

(** [MonitorState].  [_sem] is the semaphore once it exists, by the value
    it was created with; its counter is modelled with the tasks, below.
    The [asyncio.Queue] is unbounded, so [put_nowait] always appends. *)
Record MonitorState : Type := mkMonitorState {
  targets : list TargetConfig;
  concurrency : Z;
  jitter_ms : Z * Z;
  display_mode : string;
  notifications_enabled : bool;
  sound_on_down : bool;
  outage_states : gmap string OutageState;
  _sem : option nat;
  queue : list MonitorUpdate;
  thread_safe_queue : option (list MonitorUpdate)
}.

(** What a cycle does to the outside, in order. *)
Inductive event : Type :=
| Probe (host : string) (timeout_ms : Z)
| Notify (title message : string) (play_sound : bool)
| LogInfo (line : string)
| Sleep (seconds : Q).

Definition is_Notify (e : event) : bool :=
  match e with Notify _ _ _ => true | _ => false end.

Definition is_Probe (e : event) : bool :=
  match e with Probe _ _ => true | _ => false end.


(** The detail text of a success before display formatting. *)
Definition success_detail (r : PingResult) : string :=
  match latency_ms r with
  | Some l => fmt_0f (if Qeq_bool l 0 then 0 else l) ++ "ms"
  | None => "0"
  end.

Definition set_outage (st : MonitorState) (a : string) (o : OutageState)
    : MonitorState :=
  mkMonitorState (targets st) (concurrency st) (jitter_ms st) (display_mode st)
    (notifications_enabled st) (sound_on_down st)
    (<[a := o]> (outage_states st)) (_sem st) (queue st) (thread_safe_queue st).

Definition publish (st : MonitorState) (u : MonitorUpdate) : MonitorState :=
  mkMonitorState (targets st) (concurrency st) (jitter_ms st) (display_mode st)
    (notifications_enabled st) (sound_on_down st) (outage_states st) (_sem st)
    ((queue st ++ [u])%list)
    (match thread_safe_queue st with
     | Some q => Some ((q ++ [u])%list)
     | None => None
     end).

(** [MonitorState.ensure_structures].  The semaphore is created on the
    first call, with the value [concurrency] has then, and kept by the
    later ones whatever [concurrency] has become; the queue likewise; then
    every target without an outage state gets one.  A call that has to
    create the semaphore from a negative [concurrency] raises ValueError
    instead ([ensure_structures_raises]); [ensure_structures] is the state
    after a call that returns. *)
Definition ensure_outage (os : gmap string OutageState) (t : TargetConfig)
    : gmap string OutageState :=
  match os !! alias t with
  | Some _ => os
  | None => <[alias t := OutageState_init]> os
  end.

Definition ensure_structures_raises (st : MonitorState) : bool :=
  match _sem st with
  | Some _ => false
  | None => concurrency st <? 0
  end.

Definition ensure_structures (st : MonitorState) : MonitorState :=
  mkMonitorState (targets st) (concurrency st) (jitter_ms st) (display_mode st)
    (notifications_enabled st) (sound_on_down st)
    (fold_left ensure_outage (targets st) (outage_states st))
    (match _sem st with
     | Some c => Some c
     | None => Some (Z.to_nat (concurrency st))
     end)
    (queue st) (thread_safe_queue st).

(** The part of [run_one_target] after the probe: state machine, decision,
    display line, logs, publication.  Reading [state.queue] calls
    [ensure_structures] before the update is put.  Returns the state and
    the events. *)
Definition process_result (target : TargetConfig) (st : MonitorState)
    (result : PingResult) : MonitorState * list event :=
  let '(ost, st1) :=
    match outage_states st !! alias target with
    | Some o => (o, st)
    | None => (OutageState_init, set_outage st (alias target) OutageState_init)
    end in
  let '(prev, ost', notes, display_detail, line) :=
    if success result then
      let '((prev, notify_reachable), ost') := record_success ost in
      let notes :=
        if notify_reachable && notifications_enabled st1
        then [Notify "Pingu" (alias target ++ " is reachable again.") false]
        else [] in
      let detail := success_detail result in
      let display_detail := detail_for_display true detail (display_mode st1) in
      (prev, ost', notes, display_detail, alias target ++ " - OK " ++ display_detail)
    else
      let '((prev, first_failure), ost') := record_failure ost in
      let notes :=
        if notifications_enabled st1 then
          if first_failure && sound_on_down st1
          then [Notify "Pingu" (alias target ++ " is DOWN: " ++ reason result ++ ".") true]
          else [Notify "Pingu" (alias target ++ " is DOWN: " ++ reason result ++ ".") false]
        else [] in
      let display_detail :=
        detail_for_display false (reason result) (display_mode st1) in
      (prev, ost', notes, display_detail, alias target ++ " - DOWN " ++ display_detail) in
  let st2 := set_outage st1 (alias target) ost' in
  let log1 :=
    if success result then
      LogInfo ("Ping " ++ alias target ++ " (" ++ host target ++ "): OK " ++
               match latency_ms result with
               | Some _ => success_detail result
               | None => "0ms"
               end)
    else
      LogInfo ("Ping " ++ alias target ++ " (" ++ host target ++ "): DOWN " ++
               reason result) in
  let log2 :=
    if State_eqb prev UP && negb (success result)
    then [LogInfo ("UP->DOWN " ++ alias target ++ ": " ++ reason result)]
    else if State_eqb prev DOWN && success result
    then [LogInfo ("DOWN->UP " ++ alias target)]
    else [] in
  let update :=
    mkUpdate (alias target) (host target) line (success result) display_detail
             (display_mode st2) in
  (publish (ensure_structures st2) update, (notes ++ log1 :: log2)%list).

(** [run_one_target]: reading [state.sem] calls [ensure_structures]; then
    the probe inside the semaphore slot, then the rest.  An exception of
    the probe leaves the [async with] and propagates.  The state is one
    whose semaphore exists or can be created. *)
Definition run_one_target (win32 : bool) (os : os_model)
    (target : TargetConfig) (st : MonitorState)
    : outcome (MonitorState * list event) :=
  let st0 := ensure_structures st in
  match run_ping win32 os (host target) (timeout target) with
  | Returned result =>
      let '(st', evs) := process_result target st0 result in
      Returned (st', Probe (host target) (timeout target) :: evs)
  | Raised e => Raised e
  end.

(** [random.randint(a, b)]: [ValueError] on an empty range, else a value of
    the range picked by the raw random number [r]. *)
Definition randint (a b r : Z) : outcome Z :=
  if a <=? b then Returned (a + r mod (b - a + 1))
  else Raised (ExceptionSub "ValueError" None).

(** [next((t for t in state.targets if t.alias == a), None)] *)
Definition resolve (a : string) (ts : list TargetConfig) : option TargetConfig :=
  List.find (fun t => String.eqb (alias t) a) ts.

(** What one pass of the loop of [schedule_target] meets: the target list
    as the configuration side left it, the operating system for the probe,
    and the random number for the jitter after it. *)
Record cycle_env : Type := mkCycle {
  live_targets : list TargetConfig;
  cycle_os : os_model;
  cycle_rand : Z
}.

Definition set_targets (st : MonitorState) (ts : list TargetConfig) : MonitorState :=
  mkMonitorState ts (concurrency st) (jitter_ms st) (display_mode st)
    (notifications_enabled st) (sound_on_down st) (outage_states st) (_sem st)
    (queue st) (thread_safe_queue st).

(** How a task stands after the cycles given to it: it returned, an
    exception ended it, or it is at the next cycle boundary. *)
Inductive task_result : Type :=
| Finished (st : MonitorState) (tr : list event)
| Failed (e : exn) (st : MonitorState) (tr : list event)
| AtBoundary (st : MonitorState) (tr : list event).

(** The [while True] of [schedule_target], one [cycle_env] per pass, for a
    task whose own target keeps the alias [a] while it runs (see
    [schedule_loop_shared] for the general case). *)
Fixpoint schedule_loop (win32 : bool) (a : string) (st : MonitorState)
    (tr : list event) (envs : list cycle_env) : task_result :=
  match envs with
  | [] => AtBoundary st tr
  | e :: rest =>
      let st1 := set_targets st (live_targets e) in
      match resolve a (targets st1) with
      | None => Finished st1 tr
      | Some current =>
          if negb (enabled current) then Finished st1 tr
          else
            match run_one_target win32 (cycle_os e) current st1 with
            | Raised x =>
                Failed x (ensure_structures st1)
                  (tr ++ [Probe (host current) (timeout current)])%list
            | Returned (st2, evs) =>
                match randint (fst (jitter_ms st2)) (snd (jitter_ms st2))
                              (cycle_rand e) with
                | Raised x => Failed x st2 (tr ++ evs)%list
                | Returned j =>
                    schedule_loop win32 a st2
                      (tr ++ evs ++ [Sleep (inject_Z (interval current)
                                            + inject_Z j / 1000)%Q])%list
                      rest
                end
            end
      end
  end.

(** [schedule_target]: the initial jitter, then the loop; for a target
    whose alias is not edited while the task runs. *)
Definition schedule_target (win32 : bool) (target : TargetConfig)
    (st : MonitorState) (rand0 : Z) (envs : list cycle_env) : task_result :=
  match randint (fst (jitter_ms st)) (snd (jitter_ms st)) rand0 with
  | Raised x => Failed x st []
  | Returned j =>
      schedule_loop win32 (alias target) st [Sleep (inject_Z j / 1000)%Q] envs
  end.

(** The task and the target list share the target objects: the window
    edits a target in place, and [target.alias] is read from the task's
    own object at every cycle boundary.  [own_alias] is what that read
    gives at the boundary of the cycle. *)
Record shared_cycle : Type := mkShared {
  own_alias : string;
  cycle : cycle_env
}.

(** The [while True] of [schedule_target] with the alias read at every
    boundary. *)
Fixpoint schedule_loop_shared (win32 : bool) (st : MonitorState)
    (tr : list event) (envs : list shared_cycle) : task_result :=
  match envs with
  | [] => AtBoundary st tr
  | e :: rest =>
      let st1 := set_targets st (live_targets (cycle e)) in
      match resolve (own_alias e) (targets st1) with
      | None => Finished st1 tr
      | Some current =>
          if negb (enabled current) then Finished st1 tr
          else
            match run_one_target win32 (cycle_os (cycle e)) current st1 with
            | Raised x =>
                Failed x (ensure_structures st1)
                  (tr ++ [Probe (host current) (timeout current)])%list
            | Returned (st2, evs) =>
                match randint (fst (jitter_ms st2)) (snd (jitter_ms st2))
                              (cycle_rand (cycle e)) with
                | Raised x => Failed x st2 (tr ++ evs)%list
                | Returned j =>
                    schedule_loop_shared win32 st2
                      (tr ++ evs ++ [Sleep (inject_Z (interval current)
                                            + inject_Z j / 1000)%Q])%list
                      rest
                end
            end
      end
  end.

(** [schedule_target] with the shared target object. *)
Definition schedule_target_shared (win32 : bool) (st : MonitorState)
    (rand0 : Z) (envs : list shared_cycle) : task_result :=
  match randint (fst (jitter_ms st)) (snd (jitter_ms st)) rand0 with
  | Raised x => Failed x st []
  | Returned j =>
      schedule_loop_shared win32 st [Sleep (inject_Z j / 1000)%Q] envs
  end.

Definition result_trace (r : task_result) : list event :=
  match r with
  | Finished _ tr | Failed _ _ tr | AtBoundary _ tr => tr
  end.

(** ** The tasks of [run_monitor] and the shared semaphore

    asyncio runs the tasks of one session on one loop and switches between
    them at [await] only.  A task is at one of these points of
    [schedule_target]/[run_one_target]; the semaphore of
    [MonitorState.ensure_structures] is its counter. *)
Inductive pc : Type :=
| InitialSleep     (** [await asyncio.sleep(jitter)] before the loop *)
| LoopHead         (** about to re-resolve the target *)
| AwaitSlot        (** entering [async with state.sem] *)
| InFlight         (** inside the slot, [await run_ping(...)] *)
| IntervalSleep    (** [await asyncio.sleep(current.interval + jitter)] *)
| Done             (** returned, raised or cancelled *).

Definition pc_eqb (a b : pc) : bool :=
  match a, b with
  | InitialSleep, InitialSleep | LoopHead, LoopHead | AwaitSlot, AwaitSlot
  | InFlight, InFlight | IntervalSleep, IntervalSleep | Done, Done => true
  | _, _ => false
  end.

Record session : Type := mkSession {
  sem_value : nat;
  tasks : list pc
}.

Definition in_flight (s : session) : nat :=
  List.length (List.filter (pc_eqb InFlight) (tasks s)).

Definition move (s : session) (i : nat) (p : pc) (v : nat) : session :=
  mkSession v (<[i := p]> (tasks s)).

Inductive step : session -> session -> Prop :=
| step_wake_initial s i :
    tasks s !! i = Some InitialSleep ->
    step s (move s i LoopHead (sem_value s))
| step_wake_interval s i :
    tasks s !! i = Some IntervalSleep ->
    step s (move s i LoopHead (sem_value s))
| step_resolved s i :
    (* the target exists and is enabled *)
    tasks s !! i = Some LoopHead ->
    step s (move s i AwaitSlot (sem_value s))
| step_gone s i :
    (* the target is missing or disabled: [return] *)
    tasks s !! i = Some LoopHead ->
    step s (move s i Done (sem_value s))
| step_acquire s i v :
    (* [Semaphore.acquire] proceeds only on a positive counter *)
    tasks s !! i = Some AwaitSlot ->
    sem_value s = S v ->
    step s (move s i InFlight v)
| step_probe_done s i :
    (* the probe returned; the rest of the body has no await; release *)
    tasks s !! i = Some InFlight ->
    step s (move s i IntervalSleep (S (sem_value s)))
| step_probe_raised s i :
    (* the probe raised or was cancelled: [__aexit__] releases *)
    tasks s !! i = Some InFlight ->
    step s (move s i Done (S (sem_value s)))
| step_cancel s i p :
    (* cancelled at an await outside the slot *)
    tasks s !! i = Some p ->
    p <> InFlight ->
    step s (move s i Done (sem_value s)).

Inductive reachable (s0 : session) : session -> Prop :=
| reach_start : reachable s0 s0
| reach_step s s' : reachable s0 s -> step s s' -> reachable s0 s'.

(** The value the semaphore of a state has after [ensure_structures]: the
    one it was created with if it exists, else [concurrency]. *)
Definition sem_capacity (st : MonitorState) : nat :=
  match _sem st with
  | Some c => c
  | None => Z.to_nat (concurrency st)
  end.

(** [run_monitor]: [ensure_structures], which may raise, then one task per
    enabled target.  The semaphore starts with all its slots free. *)
Definition run_monitor_start (st : MonitorState) : outcome session :=
  if ensure_structures_raises st
  then Raised (ExceptionSub "ValueError" None)
  else Returned
         (mkSession (sem_capacity st)
            (List.map (fun _ => InitialSleep)
               (List.filter enabled (targets st)))).

(** ** Definitions used to state the properties *)

Definition state_after (c : call) : State :=
  match c with
  | Failure => DOWN
  | Success => UP
  end.

(** The state before each call is the one the previous call left. *)
Fixpoint chained (s : State) (l : list call_log) : Prop :=
  match l with
  | [] => True
  | e :: l' => log_before e = s /\ chained (state_after (log_call e)) l'
  end.

(** The outage state of an alias as a cycle sees it: created on demand. *)
Definition outage_of (st : MonitorState) (a : string) : OutageState :=
  match outage_states st !! a with
  | Some o => o
  | None => OutageState_init
  end.

(** The flag the state machine returns in a cycle:
    [should_announce_recovery] on success, [is_first_failure_of_outage]
    on failure. *)
Definition cycle_flag (target : TargetConfig) (st : MonitorState)
    (result : PingResult) : bool :=
  if success result
  then snd (fst (record_success (outage_of st (alias target))))
  else snd (fst (record_failure (outage_of st (alias target)))).




(** The timed-out and unreachable indicators of [_interpret]. *)
Definition timeout_indicator (output : string) : bool :=
  contains "timed out" (lower output) || contains "timeout" (lower output)
  || contains "request timed out" (lower output).

Definition unreachable_indicator (output : string) : bool :=
  contains "unreachable" (lower output).


(** A monitor state for the examples: defaults of [MonitorState]. *)
Definition default_state (ts : list TargetConfig) : MonitorState :=
  mkMonitorState ts 5 (0, 300) "latency" true true ∅ None [] None.

Definition example_target : TargetConfig :=
  mkTarget "gw" "192.168.1.1" 60 1000 true.


(** An operating system on which the probe is cancelled. *)
Definition os_cancelled : os_model :=
  fun _ _ => Throws (BaseExceptionSub "CancelledError").

(** An operating system without a [ping] executable. *)
Definition os_no_ping : os_model :=
  fun _ _ => Throws (ExceptionSub "FileNotFoundError" None).

(** An operating system on which the probe outlives the bound. *)
Definition os_hangs : os_model :=
  fun _ _ => Throws TimeoutError.

Definition os_replies (rc : Z) (out : string) (ms : Q) : os_model :=
  fun _ _ => Communicated (Some rc) out ms.

(** The texts a pattern matches, without the bookkeeping of the matcher. *)
Fixpoint all_chars (p : ascii -> bool) (s : string) : bool :=
  match s with
  | EmptyString => true
  | String c s' => p c && all_chars p s'
  end.

Fixpoint lang (r : regex) (m : string) : Prop :=
  match r with
  | Eps => m = EmptyString
  | Chr p => exists c, m = String c EmptyString /\ p c = true
  | Cat r1 r2 => exists m1 m2, m = m1 ++ m2 /\ lang r1 m1 /\ lang r2 m2
  | Opt r1 => m = EmptyString \/ lang r1 m
  | Star p => all_chars p m = true
  | Group r1 => lang r1 m
  end.

(** A number-followed-by-ms pattern somewhere in the text: a non-empty run
    of digits and dots, optional whitespace, then "ms" in any letter case. *)
Definition number_ms (s : string) : Prop :=
  exists pre t w u post,
    s = pre ++ t ++ w ++ u ++ post
    /\ t <> EmptyString /\ all_chars digit_or_dot t = true
    /\ all_chars is_space w = true
    /\ lower u = "ms".

(** The reasons a [PingResult] documents: "OK", "TIMEOUT", "UNREACHABLE",
    "ERROR:<code>". *)
Inductive probe_reason : Type :=
| R_OK
| R_TIMEOUT
| R_UNREACHABLE
| R_ERROR (code : Z).

Definition reason_text (r : probe_reason) : string :=
  match r with
  | R_OK => "OK"
  | R_TIMEOUT => "TIMEOUT"
  | R_UNREACHABLE => "UNREACHABLE"
  | R_ERROR code => "ERROR:" ++ str_of_Z code
  end.


(** Some character of the text is in the class. *)
Fixpoint any_char (p : ascii -> bool) (s : string) : bool :=
  match s with
  | EmptyString => false
  | String c s' => p c || any_char p s'
  end.



(** Cycles for the examples: the target enabled and answering, the target
    disabled, the target removed. *)
Definition cycle_up : cycle_env :=
  mkCycle [example_target] (os_replies 0 "time=10ms" 9) 7.

Definition cycle_disabled : cycle_env :=
  mkCycle [mkTarget "gw" "192.168.1.1" 60 1000 false]
          (os_replies 0 "time=10ms" 9) 7.

Definition cycle_removed : cycle_env :=
  mkCycle [] (os_replies 0 "time=10ms" 9) 7.


(** ** core/config.py: building targets *)

(** [str.strip()]: whitespace removed at both ends. *)
Fixpoint lstrip (s : string) : string :=
  match s with
  | EmptyString => EmptyString
  | String c s' => if is_space c then lstrip s' else s
  end.

Fixpoint rstrip (s : string) : string :=
  match s with
  | EmptyString => EmptyString
  | String c s' =>
      match rstrip s' with
      | EmptyString => if is_space c then EmptyString else String c EmptyString
      | r => String c r
      end
  end.

Definition strip (s : string) : string := rstrip (lstrip s).

(** The text does not begin with whitespace. *)
Definition no_lead (s : string) : Prop :=
  match s with
  | EmptyString => True
  | String c _ => is_space c = false
  end.

Definition is_empty (s : string) : bool :=
  match s with
  | EmptyString => true
  | String _ _ => false
  end.

(** [s or "Unnamed"] *)
Definition or_unnamed (s : string) : string :=
  if is_empty s then "Unnamed" else s.

(** [TargetConfig.__init__], on arguments of the annotated types. *)
Definition TargetConfig_init (alias host : string) (interval timeout : Z)
    (enabled : bool) : TargetConfig :=
  mkTarget (or_unnamed (strip alias)) (strip host)
           (Z.max 1 interval) (Z.max 100 timeout) enabled.

(** The values of a target dictionary read from JSON: strings, integers,
    booleans and null.  Numbers with a fraction, lists and objects are not
    modelled. *)
Inductive py_value : Type :=
| PStr (s : string)
| PInt (n : Z)
| PBool (b : bool)
| PNone.

(** [str(v)] *)
Definition py_str (v : py_value) : string :=
  match v with
  | PStr s => s
  | PInt n => str_of_Z n
  | PBool true => "True"
  | PBool false => "False"
  | PNone => "None"
  end.

(** [bool(v)] *)
Definition py_bool (v : py_value) : bool :=
  match v with
  | PStr s => negb (is_empty s)
  | PInt n => negb (n =? 0)
  | PBool b => b
  | PNone => false
  end.

(** [int(v)]; the reading of an integer out of a string is Python's and
    is the parameter [int_of_str]. *)
Definition py_int (int_of_str : string -> outcome Z) (v : py_value) : outcome Z :=
  match v with
  | PStr s => int_of_str s
  | PInt n => Returned n
  | PBool true => Returned 1
  | PBool false => Returned 0
  | PNone => Raised (ExceptionSub "TypeError" None)
  end.

(** [d.get(key, default)] *)
Definition dict_get (d : gmap string py_value) (key : string) (default : py_value)
    : py_value :=
  match d !! key with
  | Some v => v
  | None => default
  end.

Definition target_to_dict (t : TargetConfig) : gmap string py_value :=
  <["alias" := PStr (alias t)]>
    (<["host" := PStr (host t)]>
      (<["interval" := PInt (interval t)]>
        (<["timeout" := PInt (timeout t)]>
          (<["enabled" := PBool (enabled t)]> ∅)))).

Definition dict_to_target (int_of_str : string -> outcome Z)
    (d : gmap string py_value) : outcome TargetConfig :=
  let a := or_unnamed (strip (py_str (dict_get d "alias" (PStr "")))) in
  let h := strip (py_str (dict_get d "host" (PStr ""))) in
  match py_int int_of_str (dict_get d "interval" (PInt 60)) with
  | Raised e => Raised e
  | Returned i =>
      match py_int int_of_str (dict_get d "timeout" (PInt 1000)) with
      | Raised e => Raised e
      | Returned t =>
          Returned (TargetConfig_init a h i t
                      (py_bool (dict_get d "enabled" (PBool true))))
      end
  end.

(** ** Counting in traces *)

Definition is_sound_notify (e : event) : bool :=
  match e with
  | Notify _ _ true => true
  | _ => false
  end.

Definition is_recovery_notify (a : string) (e : event) : bool :=
  match e with
  | Notify _ m false => String.eqb m (a ++ " is reachable again.")
  | _ => false
  end.

Definition count_events (p : event -> bool) (tr : list event) : nat :=
  List.length (List.filter p tr).


Definition result_state (r : task_result) : MonitorState :=
  match r with
  | Finished st _ | Failed _ st _ | AtBoundary st _ => st
  end.

Definition at_boundary (r : task_result) : bool :=
  match r with
  | AtBoundary _ _ => true
  | _ => false
  end.


Definition is_LogInfo (e : event) : bool :=
  match e with
  | LogInfo _ => true
  | _ => false
  end.

(** The line that reports a change of state in the log. *)
Definition transition_line (target : TargetConfig) (result : PingResult) : string :=
  if success result then "DOWN->UP " ++ alias target
  else "UP->DOWN " ++ alias target ++ ": " ++ reason result.

(** The line that reports the probe in the log. *)
Definition ping_line (target : TargetConfig) (result : PingResult) : string :=
  if success result then
    "Ping " ++ alias target ++ " (" ++ host target ++ "): OK " ++
    match latency_ms result with
    | Some _ => success_detail result
    | None => "0ms"
    end
  else
    "Ping " ++ alias target ++ " (" ++ host target ++ "): DOWN " ++ reason result.

(** 1 when the task ended because its probe raised, 0 otherwise. *)
Definition probe_aborted (r : task_result) : nat :=
  match r with
  | Failed (BaseExceptionSub _) _ _ => 1
  | _ => 0
  end.

Definition has_alias (a : string) (ts : list TargetConfig) : bool :=
  existsb (fun t => String.eqb (alias t) a) ts.

(** A monitor with a mirror queue for the interface, as the window makes it. *)
Definition gui_state (ts : list TargetConfig) : MonitorState :=
  mkMonitorState ts 5 (0, 300) "codes" true true ∅ None [] (Some []).

(** A jitter range with the bounds the wrong way round. *)
Definition inverted_jitter_state (ts : list TargetConfig) : MonitorState :=
  mkMonitorState ts 5 (300, 0) "latency" true true ∅ None [] None.

(** A cycle in which the target is enabled and ping reports a timeout. *)
Definition cycle_down : cycle_env :=
  mkCycle [example_target] (os_replies 1 "Request timed out." 4000) 7.

(** A cycle in which the probe is cancelled. *)
Definition cycle_cancelled : cycle_env :=
  mkCycle [example_target] os_cancelled 7.

(** The first event of a trace. *)
Definition first_event (tr : list event) : option event :=
  match tr with
  | [] => None
  | e :: _ => Some e
  end.

(** ASCII text: every character below 128.  On such text [lower] and
    [upper] are [str.lower] and [str.upper]. *)
Definition is_ascii_char (c : ascii) : bool := (ascii_code c <? 128)%N.

Definition is_ascii (s : string) : bool := all_chars is_ascii_char s.


(** gui/main_window.py, [_set_config]: what a change of the settings
    writes into the monitor state.  The semaphore is not touched. *)
Definition _set_config (st : MonitorState) (c : Z) (j : Z * Z) (dm : string)
    (ne sd : bool) : MonitorState :=
  mkMonitorState (targets st) c j dm ne sd (outage_states st) (_sem st)
    (queue st) (thread_safe_queue st).

(** Three enabled targets under a limit of 5. *)
Definition three_targets_state : MonitorState :=
  mkMonitorState
    [example_target; mkTarget "dns" "8.8.8.8" 60 1000 true;
     mkTarget "web" "10.0.0.7" 60 1000 true]
    5 (0, 300) "latency" true true ∅ None [] (Some []).

(** The state of the window after a first start with a limit of 5 (its
    [ensure_structures]), a stop, and a change of the limit to 2. *)
Definition stale_limit_state : MonitorState :=
  _set_config (ensure_structures three_targets_state) 2 (0, 300) "latency"
    true true.


(** Cycles of a task started for "gw" whose target the window renames to
    "router" after the first cycle: the live list holds the renamed
    object, and so does the task. *)
Definition renamed_target : TargetConfig :=
  mkTarget "router" "192.168.1.1" 60 1000 true.

Definition cycle_renamed : cycle_env :=
  mkCycle [renamed_target] (os_replies 0 "time=10ms" 9) 7.

(** The values of a session reached from a start that returned. *)
Definition started (st : MonitorState) (s : session) : Prop :=
  exists s0, run_monitor_start st = Returned s0 /\ reachable s0 s.

(** * Properties *)

(** ** The cases of tests/test_ping.py and a full cycle, evaluated *)

Example test_interpret_success_with_latency :
  _interpret 0 "time=15ms" 14 1000 = mkPingResult true (Some 15%Q) "OK".
Proof. reflexivity. Qed.

Example test_interpret_success_fallback_elapsed :
  _interpret 0 "reply" 22.5 1000 = mkPingResult true (Some 22.5%Q) "OK".
Proof. reflexivity. Qed.

Example parse_latency_second_pattern :
  _parse_latency "TIME: 1.2.3 MS then 4 ms" = Some 4%Q.
Proof. reflexivity. Qed.

Example cycle_publishes_line :
  match run_one_target false (os_replies 0 "time=10ms" 9) example_target
          (default_state [example_target]) with
  | Returned (st', evs) =>
      map u_line (queue st') = ["gw - OK 10ms"]
      /\ evs = [Probe "192.168.1.1" 1000; LogInfo "Ping gw (192.168.1.1): OK 10ms"]
  | Raised _ => False
  end.
Proof. vm_compute. split; reflexivity. Qed.

Example removed_target_returns :
  match schedule_target false example_target (default_state [example_target]) 0
          [cycle_removed] with
  | Finished st' tr => queue st' = [] /\ List.filter is_Probe tr = []
  | _ => False
  end.
Proof. vm_compute. split; reflexivity. Qed.

(** ** OutageState *)

Lemma do_call_prev c o : fst (fst (do_call c o)) = _state o.
Proof. destruct c, o as [[]]; reflexivity. Qed.

Lemma do_call_flag c o : snd (fst (do_call c o)) = flag_expected (_state o) c.
Proof. destruct c, o as [[]]; reflexivity. Qed.

Lemma do_call_state c o : _state (snd (do_call c o)) = state_after c.
Proof. destruct c, o as [[]]; reflexivity. Qed.

Lemma replay_cons c cs o :
  replay o (c :: cs) =
  mkLog (_state o) c (_state o) (flag_expected (_state o) c)
    :: replay (snd (do_call c o)) cs.
Proof.
  cbn [replay].
  pose proof (do_call_prev c o) as Hp. pose proof (do_call_flag c o) as Hf.
  destruct (do_call c o) as [[prev flag] o']; cbn in *. now subst.
Qed.

Lemma replay_log_ok cs : forall o, Forall log_ok (replay o cs).
Proof.
  induction cs as [|c cs IH]; intros o.
  - constructor.
  - rewrite replay_cons. constructor; [split; reflexivity | apply IH].
Qed.

Lemma replay_chained cs : forall o, chained (_state o) (replay o cs).
Proof.
  induction cs as [|c cs IH]; intros o.
  - exact I.
  - rewrite replay_cons. split; [reflexivity|].
    cbn [log_call]. rewrite <- (do_call_state c o). apply IH.
Qed.

Lemma replay_success_up n :
  replay OutageState_init (repeat Success n) = repeat (mkLog UP Success UP false) n.
Proof.
  induction n as [|n IH]; [reflexivity|].
  cbn [repeat]. rewrite replay_cons. cbn. now rewrite <- IH.
Qed.

(** C1. On one OutageState starting UP, for every sequence of calls: each
    call returns the state before it as previous state; record_failure
    flags a first failure exactly when that state is UP, record_success
    flags a recovery exactly when it is DOWN; the state before a call is
    the one its predecessor left (DOWN after a failure, UP after a
    success). Repeated record_success while UP returns (UP, false) each
    time, and failure, failure, success, failure gives the flags
    true, false, true, true. *)
Theorem outage_state_flags :
  (forall cs, Forall log_ok (replay OutageState_init cs)
              /\ chained UP (replay OutageState_init cs))
  /\ (forall n, replay OutageState_init (repeat Success n)
                = repeat (mkLog UP Success UP false) n)
  /\ map log_flag (replay OutageState_init [Failure; Failure; Success; Failure])
     = [true; false; true; true].
Proof.
  split; [|split].
  - intros cs. split; [apply replay_log_ok | apply (replay_chained cs OutageState_init)].
  - apply replay_success_up.
  - reflexivity.
Qed.

(** ** Prober: outcome classification *)

Lemma interpret_zero out ms t :
  _interpret 0 out ms t =
  mkPingResult true
    (Some (match _parse_latency out with Some l => l | None => round1 ms end)) "OK".
Proof. reflexivity. Qed.

Lemma interpret_nonzero rc out ms t :
  rc <> 0 ->
  _interpret rc out ms t =
  mkPingResult false None
    (if timeout_indicator out then "TIMEOUT"
     else if unreachable_indicator out then "UNREACHABLE"
     else "ERROR:" ++ str_of_Z rc).
Proof.
  intros Hrc. unfold _interpret.
  destruct (Z.eqb_spec rc 0) as [->|_]; [contradiction|].
  reflexivity.
Qed.

Lemma run_ping_communicated win32 os h t rc out ms :
  os (fst (ping_command win32 h t)) (snd (ping_command win32 h t))
    = Communicated rc out ms ->
  run_ping win32 os h t
    = Returned (_interpret (match rc with Some c => c | None => 0 end) out ms t).
Proof.
  unfold run_ping. destruct (ping_command win32 h t) as [cmd b]; cbn.
  now intros ->.
Qed.

Lemma run_ping_throws win32 os h t e :
  os (fst (ping_command win32 h t)) (snd (ping_command win32 h t)) = Throws e ->
  run_ping win32 os h t =
  match e with
  | TimeoutError => Returned (mkPingResult false None "TIMEOUT")
  | ExceptionSub name attr =>
      Returned (mkPingResult false None ("ERROR:" ++ getattr_returncode name attr))
  | BaseExceptionSub name => Raised (BaseExceptionSub name)
  end.
Proof.
  unfold run_ping. destruct (ping_command win32 h t) as [cmd b]; cbn.
  now intros ->.
Qed.

Lemma round_half_even_near q :
  (inject_Z (round_half_even q) - (1 # 2) <= q
   /\ q <= inject_Z (round_half_even q) + (1 # 2))%Q
  /\ ((q - inject_Z (round_half_even q) == 1 # 2
       \/ inject_Z (round_half_even q) - q == 1 # 2)%Q ->
      Z.even (round_half_even q) = true).
Proof.
  unfold round_half_even.
  pose proof (Qfloor_le q) as Hlo. pose proof (Qlt_floor q) as Hhi.
  rewrite inject_Z_plus in Hhi. change (inject_Z 1) with 1%Q in Hhi.
  destruct (Qcompare_spec (q - inject_Z (Qfloor q)) (1 # 2)) as [He|Hl|Hg].
  - destruct (Z.even (Qfloor q)) eqn:Ev.
    + repeat split; try lra; intros _; exact Ev.
    + rewrite inject_Z_plus. change (inject_Z 1) with 1%Q.
      repeat split; try lra; intros _.
      rewrite Z.add_1_r, Z.even_succ, <- Z.negb_even, Ev. reflexivity.
  - repeat split; try lra; intros [H|H]; exfalso; lra.
  - rewrite inject_Z_plus. change (inject_Z 1) with 1%Q.
    repeat split; try lra; intros [H|H]; exfalso; lra.
Qed.

(** C2. Exit code 0 gives success with a latency: the one parsed from the
    output, else the elapsed time rounded to one decimal, that is the
    multiple of 1/10 nearest to it, the even one of two equally near. A
    nonzero exit
    code gives TIMEOUT when the output has a timed-out indicator,
    UNREACHABLE when it has an unreachable indicator and no timed-out
    one, and ERROR:<code> otherwise, each without latency. Expiry of the
    bound of the harness gives TIMEOUT without latency. *)
Theorem probe_outcome_classification :
  (forall out ms t,
     exists l, _interpret 0 out ms t = mkPingResult true (Some l) "OK"
               /\ l = match _parse_latency out with
                      | Some p => p
                      | None => round1 ms
                      end)
  /\ (forall ms,
        exists k : Z,
          round1 ms = (k # 10)%Q
          /\ (inject_Z k - (1 # 2) <= ms * 10 /\ ms * 10 <= inject_Z k + (1 # 2))%Q
          /\ ((ms * 10 - inject_Z k == 1 # 2 \/ inject_Z k - ms * 10 == 1 # 2)%Q ->
              Z.even k = true))
  /\ (forall rc out ms t, rc <> 0 -> timeout_indicator out = true ->
        _interpret rc out ms t = mkPingResult false None "TIMEOUT")
  /\ (forall rc out ms t, rc <> 0 -> timeout_indicator out = false ->
        unreachable_indicator out = true ->
        _interpret rc out ms t = mkPingResult false None "UNREACHABLE")
  /\ (forall rc out ms t, rc <> 0 -> timeout_indicator out = false ->
        unreachable_indicator out = false ->
        _interpret rc out ms t = mkPingResult false None ("ERROR:" ++ str_of_Z rc))
  /\ (forall win32 os h t rc out ms,
        os (fst (ping_command win32 h t)) (snd (ping_command win32 h t))
          = Communicated rc out ms ->
        run_ping win32 os h t
          = Returned (_interpret (match rc with Some c => c | None => 0 end) out ms t))
  /\ (forall win32 os h t,
        os (fst (ping_command win32 h t)) (snd (ping_command win32 h t))
          = Throws TimeoutError ->
        run_ping win32 os h t = Returned (mkPingResult false None "TIMEOUT")).
Proof.
  split; [|split; [|repeat split]].
  - intros out ms t. eexists. split; [apply interpret_zero | reflexivity].
  - intros ms. exists (round_half_even (ms * 10)).
    split; [reflexivity|]. apply round_half_even_near.
  - intros rc out ms t Hrc Ht. rewrite interpret_nonzero by assumption. now rewrite Ht.
  - intros rc out ms t Hrc Ht Hu. rewrite interpret_nonzero by assumption.
    now rewrite Ht, Hu.
  - intros rc out ms t Hrc Ht Hu. rewrite interpret_nonzero by assumption.
    now rewrite Ht, Hu.
  - intros. now apply run_ping_communicated.
  - intros win32 os h t H. now rewrite (run_ping_throws _ _ _ _ _ H).
Qed.

Lemma probe_outcome_classification_witness :
  _interpret 0 "reply" 22.4375 1000 = mkPingResult true (Some 22.4%Q) "OK"
  /\ _interpret 0 "reply" 0.25 1000 = mkPingResult true (Some 0.2%Q) "OK"
  /\ _interpret 0 "reply" 0.75 1000 = mkPingResult true (Some 0.8%Q) "OK"
  /\ _interpret 1 "Request timed out." 0 1000 = mkPingResult false None "TIMEOUT"
  /\ _interpret 1 "Destination Host Unreachable" 0 1000
     = mkPingResult false None "UNREACHABLE"
  /\ _interpret 2 "unknown" 0 1000 = mkPingResult false None "ERROR:2"
  /\ run_ping false (os_replies 0 "time=10ms" 9) "127.0.0.1" 1000
     = Returned (mkPingResult true (Some 10%Q) "OK")
  /\ run_ping false os_hangs "192.168.255.254" 500
     = Returned (mkPingResult false None "TIMEOUT").
Proof.
  destruct probe_outcome_classification as (Hz & _ & Ht & Hu & He & Hc & Hx).
  split; [|split; [|split; [|split; [|split; [|split; [|split]]]]]].
  - destruct (Hz "reply" 22.4375%Q 1000) as (l & -> & ->). reflexivity.
  - destruct (Hz "reply" 0.25%Q 1000) as (l & -> & ->). reflexivity.
  - destruct (Hz "reply" 0.75%Q 1000) as (l & -> & ->). reflexivity.
  - apply Ht; [lia | reflexivity].
  - apply Hu; [lia | reflexivity | reflexivity].
  - apply (He 2); [lia | reflexivity | reflexivity].
  - rewrite (Hc false (os_replies 0 "time=10ms" 9) "127.0.0.1" 1000
               (Some 0) "time=10ms" 9%Q eq_refl).
    reflexivity.
  - apply Hx. reflexivity.
Defined.

(** ** Prober: spawn failure *)

(** C3, as stated, fails: without a ping executable the reason is
    ERROR:FileNotFoundError, not TIMEOUT. *)
Lemma spawn_failure_is_not_timeout :
  run_ping false os_no_ping "192.168.1.1" 1000
    = Returned (mkPingResult false None "ERROR:FileNotFoundError")
  /\ reason (mkPingResult false None "ERROR:FileNotFoundError") <> "TIMEOUT".
Proof. split; [reflexivity | discriminate]. Qed.

(** C3, amended. When spawning the subprocess raises an error below
    Exception that is not a timeout error, run_ping returns a failure
    without latency whose reason is ERROR: followed by the returncode
    attribute of the error or, without one, by the name of its type. *)
Theorem spawn_failure_reason win32 os h t name attr :
  os (fst (ping_command win32 h t)) (snd (ping_command win32 h t))
    = Throws (ExceptionSub name attr) ->
  run_ping win32 os h t
    = Returned (mkPingResult false None ("ERROR:" ++ getattr_returncode name attr)).
Proof. intros H. now rewrite (run_ping_throws _ _ _ _ _ H). Qed.

Lemma spawn_failure_reason_witness :
  run_ping false os_no_ping "192.168.1.1" 1000
    = Returned (mkPingResult false None "ERROR:FileNotFoundError").
Proof.
  exact (spawn_failure_reason false os_no_ping "192.168.1.1" 1000
           "FileNotFoundError" None eq_refl).
Defined.

(** ** Prober: totality *)

(** C5, as stated, fails: a cancellation that reaches the awaited
    subprocess leaves run_ping as an exception. *)
Lemma run_ping_can_raise :
  run_ping false os_cancelled "192.168.1.1" 1000
    = Raised (BaseExceptionSub "CancelledError").
Proof. reflexivity. Qed.

(** The conversion before the [try] overflows for a timeout of 10^400 ms
    on both platforms, and for none that a configuration can sensibly
    hold. *)
Example overflowing_timeout :
  pre_try_raises true (10 ^ 400) = true
  /\ pre_try_raises false (10 ^ 400) = true
  /\ pre_try_raises true (10 ^ 300) = false
  /\ pre_try_raises false (10 ^ 300) = false
  /\ run_ping_call false (os_replies 0 "time=10ms" 9) "127.0.0.1" (10 ^ 400)
     = Raised (ExceptionSub "OverflowError" None).
Proof. vm_compute. repeat split. Qed.

Lemma run_ping_call_in_range win32 os h t :
  pre_try_raises win32 t = false ->
  run_ping_call win32 os h t = run_ping win32 os h t.
Proof. intros H. unfold run_ping_call. now rewrite H. Qed.

(** C5, amended. For every platform and host, and every timeout whose
    conversion to a float before the try does not overflow: when the
    subprocess step completes, exceeds the bound, or raises an error below
    Exception, run_ping returns a result, which is a success exactly when
    its reason is OK and has no latency when it is a failure; an
    exception outside Exception (cancellation) is the only thing that
    propagates. *)
Theorem run_ping_total_on_exceptions win32 os h t :
  pre_try_raises win32 t = false ->
  match os (fst (ping_command win32 h t)) (snd (ping_command win32 h t)) with
  | Throws (BaseExceptionSub name) =>
      run_ping_call win32 os h t = Raised (BaseExceptionSub name)
  | _ =>
      exists r, run_ping_call win32 os h t = Returned r
                /\ (success r = true <-> reason r = "OK")
                /\ (success r = false -> latency_ms r = None)
  end.
Proof.
  intros Hpre. rewrite (run_ping_call_in_range win32 os h t Hpre).
  destruct (os _ _) as [rc out ms | e] eqn:E.
  - rewrite (run_ping_communicated _ _ _ _ _ _ _ E).
    eexists; split; [reflexivity|].
    set (c := match rc with Some c => c | None => 0 end).
    destruct (Z.eq_dec c 0) as [->|Hc].
    + rewrite interpret_zero; cbn. split; [tauto | discriminate].
    + rewrite interpret_nonzero by assumption; cbn.
      split; [|reflexivity].
      destruct (timeout_indicator out); [split; discriminate|].
      destruct (unreachable_indicator out); split; discriminate.
  - rewrite (run_ping_throws _ _ _ _ _ E).
    destruct e as [|name attr|name]; [| |reflexivity];
      (eexists; split; [reflexivity|]; cbn; split; [split; discriminate | reflexivity]).
Qed.

Lemma run_ping_total_on_exceptions_witness :
  exists r, run_ping_call false os_no_ping "192.168.1.1" 1000 = Returned r
            /\ (success r = true <-> reason r = "OK")
            /\ (success r = false -> latency_ms r = None).
Proof.
  exact (run_ping_total_on_exceptions false os_no_ping "192.168.1.1" 1000 eq_refl).
Defined.

(** ** Prober: latency parsing *)

Lemma append_cons (x : ascii) (a b : string) : String x a ++ b = String x (a ++ b).
Proof. reflexivity. Qed.

Lemma append_nil_l (b : string) : EmptyString ++ b = b.
Proof. reflexivity. Qed.

Lemma append_assoc (a b c : string) : (a ++ b) ++ c = a ++ (b ++ c).
Proof.
  induction a as [|x a IH]; [reflexivity|].
  rewrite !append_cons. now f_equal.
Qed.

Lemma any_char_append p a b :
  any_char p (a ++ b) = any_char p a || any_char p b.
Proof.
  induction a as [|x a IH]; [reflexivity|].
  rewrite append_cons. cbn [any_char]. now rewrite IH, orb_assoc.
Qed.

Lemma star_match_sound {A : Type} p (k : string -> option A) res :
  forall s, star_match p s k = Some res ->
  exists m s', s = m ++ s' /\ all_chars p m = true /\ k s' = Some res.
Proof.
  induction s as [|c s IH]; cbn; intros H.
  - exists EmptyString, EmptyString. auto.
  - destruct (p c) eqn:Hp.
    + destruct (star_match p s k) as [x|] eqn:Hs.
      * inversion H; subst x.
        destruct (IH eq_refl) as (m & s' & -> & Hm & Hk).
        exists (String c m), s'. cbn. rewrite Hp, Hm. auto.
      * exists EmptyString, (String c s). auto.
    + exists EmptyString, (String c s). auto.
Qed.

Lemma re_match_sound r :
  forall s g k res, re_match r s g k = Some res ->
  exists m s' g', s = m ++ s' /\ lang r m /\ k s' g' = Some res.
Proof.
  induction r as [|p|r1 IH1 r2 IH2|r1 IH1|p|r1 IH1]; cbn; intros s g k res H.
  - exists EmptyString, s, g. auto.
  - destruct s as [|c s]; [discriminate|].
    destruct (p c) eqn:Hp; [|discriminate].
    exists (String c EmptyString), s, g. repeat split; eauto.
  - destruct (IH1 _ _ _ _ H) as (m1 & s1 & g1 & -> & L1 & H1).
    destruct (IH2 _ _ _ _ H1) as (m2 & s2 & g2 & -> & L2 & H2).
    exists (m1 ++ m2), s2, g2. rewrite append_assoc. repeat split; eauto.
  - destruct (re_match r1 s g k) as [x|] eqn:E.
    + destruct (IH1 _ _ _ _ E) as (m & s' & g' & -> & L & Hk).
      exists m, s', g'. inversion H; subst. auto.
    + exists EmptyString, s, g. auto.
  - destruct (star_match_sound _ _ _ _ H) as (m & s' & -> & Hm & Hk).
    exists m, s', g. auto.
  - destruct (IH1 _ _ _ _ H) as (m & s' & g' & -> & L & Hk).
    eauto 6.
Qed.

Lemma re_search_sound r :
  forall s t, re_search r s = Some t ->
  exists pre m post, s = pre ++ m ++ post /\ lang r m.
Proof.
  induction s as [|c s IH]; cbn; intros t H.
  - destruct (re_match r EmptyString None _) as [x|] eqn:E; [|discriminate].
    destruct (re_match_sound _ _ _ _ _ E) as (m & s' & g' & Hs & L & _).
    exists EmptyString, m, s'. auto.
  - destruct (re_match r (String c s) None _) as [x|] eqn:E.
    + destruct (re_match_sound _ _ _ _ _ E) as (m & s' & g' & Hs & L & _).
      exists EmptyString, m, s'. auto.
    + destruct (IH _ H) as (pre & m & post & -> & L).
      exists (String c pre), m, post. auto.
Qed.

Lemma lang_number_group t :
  lang number_group t -> t <> EmptyString /\ all_chars digit_or_dot t = true.
Proof.
  cbn. intros (m1 & m2 & -> & (c & -> & Hc) & Hm).
  rewrite append_cons, append_nil_l. cbn.
  rewrite Hc, Hm. split; [discriminate | reflexivity].
Qed.

Lemma lang_lit_ms ci u : lang (lit ci "ms") u -> lower u = "ms".
Proof.
  cbn. intros (m1 & m2 & -> & (c1 & -> & H1) & m3 & m4 & -> & (c2 & -> & H2) & ->).
  rewrite !append_cons, !append_nil_l. cbn. unfold char_is in *.
  assert (E1 : lower_char c1 = "m"%char).
  { destruct ci; apply Ascii.eqb_eq in H1; [exact H1 | now subst]. }
  assert (E2 : lower_char c2 = "s"%char).
  { destruct ci; apply Ascii.eqb_eq in H2; [exact H2 | now subst]. }
  now rewrite E1, E2.
Qed.

Lemma lang_tail_number_ms ci m :
  lang (Cat number_group (Cat (Star is_space) (lit ci "ms"))) m ->
  exists t w u, m = t ++ w ++ u
    /\ t <> EmptyString /\ all_chars digit_or_dot t = true
    /\ all_chars is_space w = true /\ lower u = "ms".
Proof.
  intros (t & m' & -> & Ht & w & u & -> & Hw & Hu).
  apply lang_number_group in Ht. apply lang_lit_ms in Hu.
  exists t, w, u. tauto.
Qed.

Lemma re_bare_number_ms s t : re_search re_bare s = Some t -> number_ms s.
Proof.
  intros H. destruct (re_search_sound _ _ _ H) as (pre & m & post & -> & L).
  destruct (lang_tail_number_ms _ _ L) as (t' & w & u & -> & Ht & Hd & Hw & Hu).
  exists pre, t', w, u, post. rewrite !append_assoc. auto.
Qed.

Lemma re_time_number_ms s t : re_search re_time s = Some t -> number_ms s.
Proof.
  intros H. destruct (re_search_sound _ _ _ H) as (pre & m & post & -> & L).
  unfold re_time in L.
  destruct L as (a & m1 & -> & _ & b & m2 & -> & _ & c & m3 & -> & _ & L).
  destruct (lang_tail_number_ms _ _ L) as (t' & w & u & -> & Ht & Hd & Hw & Hu).
  exists (pre ++ a ++ b ++ c), t', w, u, post. rewrite !append_assoc. auto.
Qed.

Lemma parse_latency_number_ms s x : _parse_latency s = Some x -> number_ms s.
Proof.
  unfold _parse_latency. intros H.
  destruct (re_search re_time s) as [t|] eqn:E1.
  - eapply re_time_number_ms; eassumption.
  - destruct (re_search re_bare s) as [t|] eqn:E2; [|discriminate].
    eapply re_bare_number_ms; eassumption.
Qed.

(** C6. "time=23ms" parses to 23.0, "time=12.3 ms" to 12.3, a text with a
    bare "42.5 ms" and no "time=" to 42.5, and a text with no
    number-followed-by-ms pattern to none. *)
Theorem parse_latency_examples :
  _parse_latency "time=23ms" = Some 23%Q
  /\ (23 == 23.0)%Q
  /\ _parse_latency "Reply from 8.8.8.8: bytes=32 time=23ms TTL=54" = Some 23%Q
  /\ _parse_latency "time=12.3 ms" = Some 12.3%Q
  /\ _parse_latency "64 bytes from 8.8.8.8: icmp_seq=1 ttl=54 time=12.3 ms"
     = Some 12.3%Q
  /\ _parse_latency "something 42.5 ms" = Some 42.5%Q
  /\ _parse_latency "no time here" = None
  /\ (forall s, ~ number_ms s -> _parse_latency s = None).
Proof.
  repeat split; try reflexivity.
  intros s Hs. destruct (_parse_latency s) as [x|] eqn:E; [|reflexivity].
  exfalso. apply Hs. eapply parse_latency_number_ms; eassumption.
Qed.

Lemma number_ms_has_digit s : number_ms s -> any_char digit_or_dot s = true.
Proof.
  intros (pre & t & w & u & post & -> & Ht & Hd & _).
  rewrite any_char_append. apply orb_true_iff. right.
  destruct t as [|c t]; [contradiction|].
  rewrite append_cons. cbn [any_char all_chars] in *.
  apply andb_prop in Hd as [-> _]. reflexivity.
Qed.

Lemma parse_latency_examples_witness : _parse_latency "no time here" = None.
Proof.
  destruct parse_latency_examples as (_ & _ & _ & _ & _ & _ & _ & H).
  apply (H "no time here"). intros Hn.
  apply number_ms_has_digit in Hn. vm_compute in Hn. discriminate Hn.
Defined.

(** ** ensure_structures *)

Lemma ensure_outage_lookup os t a :
  ensure_outage os t !! a =
  match os !! a with
  | Some o => Some o
  | None => if String.eqb (alias t) a then Some OutageState_init else None
  end.
Proof.
  unfold ensure_outage. destruct (String.eqb_spec (alias t) a) as [->|Hne].
  - destruct (os !! a) as [o|] eqn:E; [now rewrite E|].
    now rewrite lookup_insert_eq.
  - destruct (os !! alias t) as [o|] eqn:E; [now destruct (os !! a)|].
    rewrite lookup_insert_ne by exact Hne. now destruct (os !! a).
Qed.

Lemma fold_ensure_lookup ts : forall (os : gmap string OutageState) a,
  fold_left ensure_outage ts os !! a =
  match os !! a with
  | Some o => Some o
  | None => if has_alias a ts then Some OutageState_init else None
  end.
Proof.
  induction ts as [|t ts IH]; intros os a; cbn [fold_left has_alias existsb].
  - now destruct (os !! a).
  - rewrite IH, ensure_outage_lookup. fold (has_alias a ts).
    destruct (os !! a); [reflexivity|].
    destruct (String.eqb (alias t) a); [reflexivity|].
    now destruct (has_alias a ts).
Qed.

Lemma fold_ensure_fixed ts : forall (os : gmap string OutageState),
  (forall t, In t ts -> os !! alias t <> None) ->
  fold_left ensure_outage ts os = os.
Proof.
  induction ts as [|t ts IH]; intros os H; [reflexivity|].
  cbn [fold_left]. unfold ensure_outage at 2.
  destruct (os !! alias t) eqn:E.
  - apply IH. intros t' Ht'. apply H. now right.
  - exfalso. apply (H t); [now left | exact E].
Qed.

Lemma has_alias_in t ts : In t ts -> has_alias (alias t) ts = true.
Proof.
  intros H. unfold has_alias. apply existsb_exists.
  exists t. split; [exact H | apply String.eqb_refl].
Qed.



(** ** Scheduler: notification decision *)





(** ** Scheduler: display line *)

Lemma prefix_cons a s1 b s2 :
  String.prefix (String a s1) (String b s2)
  = if Ascii.eqb b a then String.prefix s1 s2 else false.
Proof.
  cbn. destruct (ascii_dec a b) as [->|Hne].
  - now rewrite Ascii.eqb_refl.
  - destruct (Ascii.eqb_spec b a); [congruence | reflexivity].
Qed.








Lemma prefix_nil s : String.prefix EmptyString s = true.
Proof. now destruct s. Qed.

Lemma prefix_spec n : forall s,
  String.prefix n s = true <-> exists post, s = n ++ post.
Proof.
  induction n as [|a n IH]; intros s.
  - rewrite prefix_nil. split; [exists s; reflexivity | reflexivity].
  - destruct s as [|b s].
    + split; [discriminate | intros (post & H); discriminate H].
    + rewrite prefix_cons. split.
      * destruct (Ascii.eqb_spec b a) as [->|]; [|discriminate].
        intros H. apply IH in H as (post & ->). exists post. reflexivity.
      * intros (post & H). rewrite append_cons in H. inversion H; subst.
        rewrite Ascii.eqb_refl. apply IH. eauto.
Qed.

Lemma contains_spec n : forall s,
  contains n s = true <-> exists pre post, s = pre ++ n ++ post.
Proof.
  induction s as [|b s IH]; cbn [contains].
  - rewrite orb_false_r, prefix_spec. split.
    + intros (post & H). exists EmptyString, post. exact H.
    + intros (pre & post & H). destruct pre; [eauto | discriminate H].
  - rewrite orb_true_iff, prefix_spec, IH. split.
    + intros [(post & H)|(pre & post & H)].
      * exists EmptyString, post. exact H.
      * exists (String b pre), post. rewrite append_cons. now f_equal.
    + intros (pre & post & H). destruct pre as [|c pre].
      * left. exists post. exact H.
      * right. rewrite append_cons in H. inversion H; subst. eauto.
Qed.

Lemma contains_suffix a b s : contains (a ++ b) s = true -> contains b s = true.
Proof.
  rewrite !contains_spec. intros (pre & post & ->).
  exists (pre ++ a), post. now rewrite !append_assoc.
Qed.







(** Every reason [_interpret] produces is one of the documented ones, so
    the display detail of an interpreted outcome is the one stated above. *)
Lemma interpret_reason_documented rc out ms t :
  exists r, reason (_interpret rc out ms t) = reason_text r
            /\ (success (_interpret rc out ms t) = true <-> r = R_OK).
Proof.
  destruct (Z.eq_dec rc 0) as [->|Hrc].
  - exists R_OK. rewrite interpret_zero. cbn. tauto.
  - rewrite interpret_nonzero by assumption. cbn [reason success].
    destruct (timeout_indicator out);
      [exists R_TIMEOUT | destruct (unreachable_indicator out);
                          [exists R_UNREACHABLE | exists (R_ERROR rc)]];
      (split; [reflexivity | split; discriminate]).
Qed.

(** ** Scheduler: the loop ends when the target is gone or disabled *)

Lemma schedule_loop_unedited win32 a envs : forall st tr,
  schedule_loop win32 a st tr envs
  = schedule_loop_shared win32 st tr (List.map (mkShared a) envs).
Proof.
  induction envs as [|e rest IH]; intros st tr; [reflexivity|].
  cbn [schedule_loop schedule_loop_shared List.map own_alias cycle].
  destruct (resolve a _) as [c|]; [|reflexivity].
  destruct (negb (enabled c)); [reflexivity|].
  destruct (run_one_target _ _ _ _) as [[st2 evs]|x]; [|reflexivity].
  destruct (randint _ _ _) as [j|x]; [|reflexivity].
  apply IH.
Qed.




(** A task started for "gw" whose target is renamed to "router" keeps
    polling it under the new alias, and ends at the boundary where no
    target of the list has the alias its own target then has. *)
Example renamed_target_is_still_polled :
  count_events is_Probe
    (result_trace
       (schedule_target_shared false (default_state [example_target]) 0
          [mkShared "gw" cycle_up; mkShared "router" cycle_renamed;
           mkShared "router" cycle_renamed]))
  = 3%nat
  /\ at_boundary
       (schedule_target_shared false (default_state [example_target]) 0
          [mkShared "gw" cycle_up; mkShared "router" cycle_renamed;
           mkShared "router" cycle_up])
     = false.
Proof. vm_compute. split; reflexivity. Qed.

(** ** Scheduler: the semaphore and the probes in flight *)






Lemma stale_session_started :
  started stale_limit_state (mkSession 2 [InFlight; InFlight; InFlight]).
Proof.
  exists (mkSession 5 [InitialSleep; InitialSleep; InitialSleep]).
  split; [reflexivity|].
  refine (reach_step _ _ _ (reach_step _ _ _ (reach_step _ _ _
          (reach_step _ _ _ (reach_step _ _ _ (reach_step _ _ _
          (reach_step _ _ _ (reach_step _ _ _ (reach_step _ _ _ (reach_start _)
            (step_wake_initial (mkSession 5 [InitialSleep; InitialSleep; InitialSleep]) 0 eq_refl))
            (step_wake_initial (mkSession 5 [LoopHead; InitialSleep; InitialSleep]) 1 eq_refl))
            (step_wake_initial (mkSession 5 [LoopHead; LoopHead; InitialSleep]) 2 eq_refl))
            (step_resolved (mkSession 5 [LoopHead; LoopHead; LoopHead]) 0 eq_refl))
            (step_resolved (mkSession 5 [AwaitSlot; LoopHead; LoopHead]) 1 eq_refl))
            (step_resolved (mkSession 5 [AwaitSlot; AwaitSlot; LoopHead]) 2 eq_refl))
            (step_acquire (mkSession 5 [AwaitSlot; AwaitSlot; AwaitSlot]) 0 4 eq_refl eq_refl))
            (step_acquire (mkSession 4 [InFlight; AwaitSlot; AwaitSlot]) 1 3 eq_refl eq_refl))
            (step_acquire (mkSession 3 [InFlight; InFlight; AwaitSlot]) 2 2 eq_refl eq_refl)).
Qed.


(** C9, the code at the failing input: the window starts monitoring with
    a limit of 5, stops, the limit is set to 2 and monitoring starts
    again with three enabled targets. The semaphore of the first start
    is kept, and three probes are in flight together under a limit of 2. *)
Theorem stale_semaphore_exceeds_limit :
  concurrency stale_limit_state = 2
  /\ run_monitor_start stale_limit_state
     = Returned (mkSession 5 [InitialSleep; InitialSleep; InitialSleep])
  /\ started stale_limit_state (mkSession 2 [InFlight; InFlight; InFlight])
  /\ in_flight (mkSession 2 [InFlight; InFlight; InFlight]) = 3%nat.
Proof.
  split; [reflexivity|]. split; [reflexivity|]. split; [|reflexivity].
  exact stale_session_started.
Qed.

(** ** Prober: the timeout given to ping *)

Lemma timeout_seconds_ceiling t :
  (t + 999) / 1000 = Qceiling (t # 1000).
Proof.
  unfold Qceiling, Qfloor, Qopp; cbn [Qnum Qden].
  change (Z.pos 1000) with 1000.
  Z.div_mod_to_equations. lia.
Qed.

Lemma round_half_even_int (z : Z) (q : Q) :
  (q == inject_Z z)%Q -> round_half_even q = z.
Proof.
  intros H. unfold round_half_even.
  assert (Hf : Qfloor q = z) by (rewrite H; apply Qfloor_Z).
  rewrite Hf.
  destruct (Qcompare_spec (q - inject_Z z) (1 # 2)) as [He|Hl|Hg].
  - exfalso. lra.
  - reflexivity.
  - exfalso. lra.
Qed.

Lemma Qpow2_nonpos e :
  e <= 0 -> (Qpow2 e == 1 # Z.to_pos (2 ^ (- e)))%Q.
Proof.
  intros He. unfold Qpow2. destruct (Z.leb_spec 0 e) as [H0|H0].
  - assert (e = 0) by lia. subst e. reflexivity.
  - reflexivity.
Qed.

Lemma Qred_inject_Z n : Qred (inject_Z n) = inject_Z n.
Proof.
  unfold Qred, inject_Z.
  pose proof (Z.ggcd_gcd n 1) as Hg.
  pose proof (Z.ggcd_correct_divisors n 1) as Hd.
  destruct (Z.ggcd n 1) as [g [a b]]. cbn [fst snd] in *.
  rewrite Z.gcd_1_r in Hg. subst g. destruct Hd as [Ha Hb].
  assert (Ea : a = n) by lia. assert (Eb : b = 1) by lia.
  rewrite Ea, Eb. reflexivity.
Qed.

Lemma b64_round_int n :
  0 < n < 2 ^ 53 -> b64_round (inject_Z n) = inject_Z n.
Proof.
  intros [Hpos Hlt]. unfold b64_round.
  destruct (Qeq_bool (inject_Z n) 0) eqn:E.
  { apply Qeq_bool_iff in E. unfold Qeq in E; cbn in E. lia. }
  assert (Habs : Qabs (inject_Z n) = inject_Z n).
  { unfold Qabs, inject_Z. now rewrite Z.abs_eq by lia. }
  rewrite Habs.
  assert (Hle : Qle_bool 0 (inject_Z n) = true).
  { apply Qle_bool_iff. unfold Qle; cbn. lia. }
  rewrite Hle.
  pose proof (Z.log2_spec n Hpos) as [Hlo Hhi].
  pose proof (Z.log2_nonneg n) as Hnn.
  assert (He : Qlog2_floor (inject_Z n) = Z.log2 n).
  { unfold Qlog2_floor.
    change (Qnum (inject_Z n)) with n.
    change (Z.log2 (Z.pos (Qden (inject_Z n)))) with 0. rewrite Z.sub_0_r.
    unfold Qpow2. destruct (Z.leb_spec 0 (Z.log2 n)) as [_|]; [|lia].
    assert (Hq : Qle_bool (inject_Z (2 ^ Z.log2 n)) (inject_Z n) = true).
    { apply Qle_bool_iff. unfold Qle; cbn. lia. }
    now rewrite Hq. }
  rewrite He.
  assert (He53 : Z.log2 n < 53) by (apply Z.log2_lt_pow2; lia).
  rewrite Z.max_l by lia.
  set (j := 52 - Z.log2 n).
  assert (Hj : 0 <= j) by (unfold j; lia).
  assert (Hp : 0 < 2 ^ j) by (apply Z.pow_pos_nonneg; lia).
  assert (Hu : (Qpow2 (Z.log2 n - 52) == 1 # Z.to_pos (2 ^ j))%Q).
  { rewrite Qpow2_nonpos by lia. unfold j.
    replace (- (Z.log2 n - 52)) with (52 - Z.log2 n) by lia. reflexivity. }
  assert (Hm : (inject_Z n / Qpow2 (Z.log2 n - 52) == inject_Z (n * 2 ^ j))%Q).
  { rewrite Hu. unfold Qeq, Qdiv, Qmult, Qinv, inject_Z; cbn.
    rewrite Z2Pos.id by lia. lia. }
  rewrite (round_half_even_int _ _ Hm).
  rewrite <- (Qred_inject_Z n).
  apply Qred_complete. rewrite Hu.
  unfold Qeq, Qmult, inject_Z; cbn.
  rewrite Pos.mul_1_l, Z2Pos.id by lia. lia.
Qed.

(** C10, as stated, fails: for a timeout of 10^20 ms, which converts to a
    float, the per-packet timeout is 10^17 s and the bound of the harness
    is the float sum 10^17 + 2.0, which is 10^17, not that value plus 2. *)
Lemma harness_bound_is_rounded :
  pre_try_raises false (10 ^ 20) = false
  /\ _timeout_seconds (10 ^ 20) = 10 ^ 17
  /\ snd (ping_command false "192.168.1.1" (10 ^ 20)) = inject_Z (10 ^ 17)
  /\ ~ (snd (ping_command false "192.168.1.1" (10 ^ 20))
        == inject_Z (_timeout_seconds (10 ^ 20)) + 2)%Q.
Proof.
  split; [vm_compute; reflexivity|]. split; [vm_compute; reflexivity|].
  split; [vm_compute; reflexivity|].
  vm_compute. discriminate.
Qed.

(** C10, amended. Outside Windows, for every timeout_ms, the per-packet
    timeout is max(1, ceil(timeout_ms / 1000)) whole seconds, so it is at
    least one second, and exactly one for every timeout below 1000 ms;
    and whenever that value plus 2 is below 2^53, the command carries
    that value after -W and the bound of the harness is exactly that
    value plus 2 seconds. *)
Theorem non_windows_timeout (h : string) (t : Z) :
  _timeout_seconds t = Z.max 1 (Qceiling (t # 1000))
  /\ 1 <= _timeout_seconds t
  /\ _timeout_seconds (Z.min t 999) = 1
  /\ (_timeout_seconds t + 2 < 2 ^ 53 ->
      ping_command false h t
      = (["ping"; "-c"; "1"; "-W"; str_of_Z (Z.max 1 (Qceiling (t # 1000))); h],
         inject_Z (Z.max 1 (Qceiling (t # 1000)) + 2))).
Proof.
  assert (E : _timeout_seconds t = Z.max 1 (Qceiling (t # 1000))).
  { unfold _timeout_seconds. now rewrite timeout_seconds_ceiling. }
  assert (H1 : 1 <= _timeout_seconds t) by (unfold _timeout_seconds; lia).
  split; [exact E|]. split; [exact H1|]. split.
  - unfold _timeout_seconds.
    assert ((Z.min t 999 + 999) / 1000 < 2).
    { apply Z.div_lt_upper_bound; lia. }
    lia.
  - intros Hb. unfold ping_command, float_of_int. rewrite <- E.
    rewrite b64_round_int by lia.
    assert (Hs : (inject_Z (_timeout_seconds t) + 2)%Q
                 = inject_Z (_timeout_seconds t + 2)).
    { unfold Qplus, inject_Z; cbn. f_equal. lia. }
    rewrite Hs, b64_round_int by lia. reflexivity.
Qed.

Lemma non_windows_timeout_witness :
  ping_command false "192.168.1.1" 1500
  = (["ping"; "-c"; "1"; "-W"; "2"; "192.168.1.1"], 4%Q).
Proof.
  destruct (non_windows_timeout "192.168.1.1" 1500) as (_ & _ & _ & H).
  rewrite H by (vm_compute; reflexivity). reflexivity.
Defined.

(** ** core/config.py: targets *)

Example strip_example : strip (String " " (String "009" " a b  ")) = "a b".
Proof. reflexivity. Qed.

Lemma lstrip_no_lead s : no_lead (lstrip s).
Proof.
  induction s as [|c s IH]; [exact I|].
  cbn [lstrip]. destruct (is_space c) eqn:E; [exact IH | exact E].
Qed.

Lemma lstrip_fixed s : no_lead s -> lstrip s = s.
Proof. destruct s as [|c s]; [reflexivity|]. cbn. now intros ->. Qed.

Lemma rstrip_cons c s :
  rstrip (String c s) =
  match rstrip s with
  | EmptyString => if is_space c then EmptyString else String c EmptyString
  | r => String c r
  end.
Proof. reflexivity. Qed.

Lemma rstrip_idem s : rstrip (rstrip s) = rstrip s.
Proof.
  induction s as [|c s IH]; [reflexivity|].
  rewrite rstrip_cons. destruct (rstrip s) as [|x r] eqn:E.
  - destruct (is_space c) eqn:Ec; [reflexivity|].
    rewrite rstrip_cons. cbn [rstrip]. now rewrite Ec.
  - rewrite rstrip_cons, IH. reflexivity.
Qed.

Lemma rstrip_no_lead s : no_lead s -> no_lead (rstrip s).
Proof.
  destruct s as [|c s]; [intros _; exact I|].
  cbn [no_lead]. intros Hc. rewrite rstrip_cons.
  destruct (rstrip s); [rewrite Hc|]; exact Hc.
Qed.

Lemma strip_idem s : strip (strip s) = strip s.
Proof.
  unfold strip.
  rewrite (lstrip_fixed (rstrip (lstrip s))).
  - apply rstrip_idem.
  - apply rstrip_no_lead, lstrip_no_lead.
Qed.

Lemma or_unnamed_strip s : strip (or_unnamed (strip s)) = or_unnamed (strip s).
Proof.
  unfold or_unnamed. destruct (strip s) as [|c r] eqn:E; [reflexivity|].
  cbn [is_empty]. rewrite <- E. apply strip_idem.
Qed.

Lemma or_unnamed_idem s : or_unnamed (or_unnamed s) = or_unnamed s.
Proof. now destruct s. Qed.

Lemma or_unnamed_nonempty s : or_unnamed s <> EmptyString.
Proof. now destruct s. Qed.

Lemma TargetConfig_init_facts a h i t e :
  let tc := TargetConfig_init a h i t e in
  alias tc <> EmptyString
  /\ strip (alias tc) = alias tc
  /\ strip (host tc) = host tc
  /\ 1 <= interval tc
  /\ 100 <= timeout tc
  /\ TargetConfig_init (alias tc) (host tc) (interval tc) (timeout tc) (enabled tc)
     = tc.
Proof.
  cbn zeta. unfold TargetConfig_init; cbn [alias host interval timeout enabled].
  split; [apply or_unnamed_nonempty|].
  split; [apply or_unnamed_strip|].
  split; [apply strip_idem|].
  split; [lia|]. split; [lia|].
  rewrite or_unnamed_strip, or_unnamed_idem, strip_idem.
  now rewrite !Z.max_assoc, !Z.max_id.
Qed.


Lemma target_to_dict_get t :
  dict_get (target_to_dict t) "alias" (PStr "") = PStr (alias t)
  /\ dict_get (target_to_dict t) "host" (PStr "") = PStr (host t)
  /\ dict_get (target_to_dict t) "interval" (PInt 60) = PInt (interval t)
  /\ dict_get (target_to_dict t) "timeout" (PInt 1000) = PInt (timeout t)
  /\ dict_get (target_to_dict t) "enabled" (PBool true) = PBool (enabled t).
Proof.
  unfold dict_get, target_to_dict.
  repeat split;
    repeat (first [rewrite lookup_insert_eq | rewrite lookup_insert_ne by done]);
    reflexivity.
Qed.

(** X2. Exporting a target to a dictionary and reading it back gives the
    same target, for every target the constructor or the reader can
    produce; reading never fails on an exported dictionary. *)
Theorem target_dict_round_trip int_of_str a h i t e :
  let tc := TargetConfig_init a h i t e in
  dict_to_target int_of_str (target_to_dict tc) = Returned tc.
Proof.
  intros tc. unfold dict_to_target.
  destruct (target_to_dict_get tc) as (-> & -> & -> & -> & ->).
  cbn [py_str py_int py_bool].
  destruct (TargetConfig_init_facts a h i t e) as (_ & Ha & Hh & _ & _ & Hi).
  fold tc in Ha, Hh, Hi. rewrite Ha, Hh.
  replace (or_unnamed (alias tc)) with (alias tc).
  - now rewrite Hi.
  - unfold tc, TargetConfig_init; cbn [alias]. now rewrite or_unnamed_idem.
Qed.

(** X3. A dictionary without interval and timeout keys is always read,
    with interval 60 and timeout 1000; without an alias key the alias is
    "Unnamed" and without an enabled key the target is enabled. A null
    interval makes the reading fail with TypeError. *)
Theorem dict_to_target_defaults int_of_str (d : gmap string py_value) :
  (d !! "interval" = None -> d !! "timeout" = None ->
   exists tc, dict_to_target int_of_str d = Returned tc
     /\ interval tc = 60 /\ timeout tc = 1000
     /\ (d !! "alias" = None -> alias tc = "Unnamed")
     /\ (d !! "enabled" = None -> enabled tc = true))
  /\ (d !! "interval" = Some PNone ->
      dict_to_target int_of_str d = Raised (ExceptionSub "TypeError" None)).
Proof.
  split.
  - intros Hi Ht. unfold dict_to_target, dict_get. rewrite Hi, Ht.
    cbn [py_int]. eexists. split; [reflexivity|].
    cbn [TargetConfig_init interval timeout alias enabled].
    repeat split; try reflexivity; intros ->; reflexivity.
  - intros Hi. unfold dict_to_target, dict_get. now rewrite Hi.
Qed.

Lemma dict_to_target_defaults_witness :
  exists tc,
    dict_to_target (fun _ => Raised (ExceptionSub "ValueError" None)) ∅ = Returned tc
    /\ interval tc = 60 /\ timeout tc = 1000
    /\ ((∅ : gmap string py_value) !! "alias" = None -> alias tc = "Unnamed")
    /\ ((∅ : gmap string py_value) !! "enabled" = None -> enabled tc = true).
Proof.
  exact (proj1 (dict_to_target_defaults
                  (fun _ => Raised (ExceptionSub "ValueError" None)) ∅)
               eq_refl eq_refl).
Defined.

(** ** core/ping.py: more on the prober *)

Lemma digits_value_nonneg s : forall acc v n,
  0 <= acc -> digits_value acc s = Some (v, n) -> 0 <= v.
Proof.
  induction s as [|c s IH]; cbn [digits_value]; intros acc v n Hacc H.
  - now inversion H; subst.
  - destruct (is_digit c); [|discriminate].
    destruct (digits_value _ s) as [[v' n']|] eqn:E; [|discriminate].
    inversion H; subst. eapply IH; [|exact E]. lia.
Qed.

Lemma float_of_str_nonneg t q : float_of_str t = Some q -> (0 <= q)%Q.
Proof.
  unfold float_of_str. destruct (split_dot t) as [ip fp].
  destruct (digits_value 0 ip) as [[iv ni]|] eqn:E1; [|discriminate].
  destruct (digits_value iv _) as [[v nf]|] eqn:E2; [|discriminate].
  destruct (ni + nf =? 0)%nat; [discriminate|].
  intros H; inversion H; subst. unfold Qle; cbn.
  apply digits_value_nonneg in E1; [|lia].
  apply digits_value_nonneg in E2; [|lia]. lia.
Qed.

Lemma parse_latency_nonneg s q : _parse_latency s = Some q -> (0 <= q)%Q.
Proof.
  unfold _parse_latency.
  destruct (re_search re_time s) as [t1|].
  - destruct (float_of_str t1) as [x|] eqn:E1.
    + intros H; inversion H; subst. eapply float_of_str_nonneg; eassumption.
    + destruct (re_search re_bare s) as [t2|]; [|discriminate].
      apply float_of_str_nonneg.
  - destruct (re_search re_bare s) as [t2|]; [|discriminate].
    apply float_of_str_nonneg.
Qed.

Lemma round_half_even_nonneg x : (0 <= x)%Q -> 0 <= round_half_even x.
Proof.
  intros Hx. unfold round_half_even.
  assert (0 <= Qfloor x).
  { change 0 with (Qfloor 0). now apply Qfloor_resp_le. }
  destruct (_ ?= _)%Q; [destruct (Z.even _)| |]; lia.
Qed.

Lemma round1_nonneg x : (0 <= x)%Q -> (0 <= round1 x)%Q.
Proof.
  intros Hx. unfold round1, Qle; cbn.
  assert (0 <= round_half_even (x * 10)).
  { apply round_half_even_nonneg. apply Qmult_le_0_compat; [exact Hx | discriminate]. }
  lia.
Qed.

(** X4. A latency reported by the prober is never negative, provided the
    measured elapsed time is not: a parsed latency is a number without
    sign, and the fallback rounds a non-negative time. *)
Theorem latency_never_negative rc out ms t l :
  (0 <= ms)%Q ->
  latency_ms (_interpret rc out ms t) = Some l ->
  (0 <= l)%Q.
Proof.
  intros Hms. unfold _interpret.
  destruct (rc =? 0); [|discriminate]. cbn [latency_ms].
  destruct (_parse_latency out) as [p|] eqn:E; intros H; inversion H; subst.
  - eapply parse_latency_nonneg; eassumption.
  - now apply round1_nonneg.
Qed.

Lemma latency_never_negative_witness : (0 <= 12.3)%Q.
Proof.
  apply (latency_never_negative 0 "time=12.3 ms" 40 1000 12.3%Q).
  - discriminate.
  - reflexivity.
Defined.

Lemma lower_upper_char c : lower_char (upper_char c) = lower_char c.
Proof. destruct c as [[] [] [] [] [] [] [] []]; reflexivity. Qed.

Lemma lower_lower_char c : lower_char (lower_char c) = lower_char c.
Proof. destruct c as [[] [] [] [] [] [] [] []]; reflexivity. Qed.

Lemma upper_lower_char c : upper_char (lower_char c) = upper_char c.
Proof. destruct c as [[] [] [] [] [] [] [] []]; reflexivity. Qed.

Lemma lower_upper s : lower (upper s) = lower s.
Proof.
  unfold lower, upper. induction s as [|c s IH]; [reflexivity|].
  cbn [map_string]. now rewrite lower_upper_char, IH.
Qed.

Lemma lower_lower s : lower (lower s) = lower s.
Proof.
  unfold lower. induction s as [|c s IH]; [reflexivity|].
  cbn [map_string]. now rewrite lower_lower_char, IH.
Qed.

Lemma upper_lower s : upper (lower s) = upper s.
Proof.
  unfold lower, upper. induction s as [|c s IH]; [reflexivity|].
  cbn [map_string]. now rewrite upper_lower_char, IH.
Qed.

(** X5. For an output of ping in ASCII, the classification of a failed
    probe does not depend on the letter case of the output: the output in
    upper case or in lower case gives the same result as the output
    itself. *)
Theorem failure_classification_ignores_case rc out ms t :
  is_ascii out = true ->
  rc <> 0 ->
  _interpret rc (upper out) ms t = _interpret rc out ms t
  /\ _interpret rc (lower out) ms t = _interpret rc out ms t.
Proof.
  intros _ Hrc. rewrite !interpret_nonzero by assumption.
  unfold timeout_indicator, unreachable_indicator.
  now rewrite lower_upper, lower_lower.
Qed.

Lemma failure_classification_ignores_case_witness :
  _interpret 1 (upper "Request timed out.") 0 1000
    = _interpret 1 "Request timed out." 0 1000
  /\ _interpret 1 (lower "Request timed out.") 0 1000
     = _interpret 1 "Request timed out." 0 1000.
Proof.
  apply failure_classification_ignores_case; [reflexivity | discriminate].
Defined.

Lemma timeout_indicator_two_tests out :
  timeout_indicator out
  = contains "timed out" (lower out) || contains "timeout" (lower out).
Proof.
  unfold timeout_indicator.
  destruct (contains "request timed out" (lower out)) eqn:E.
  - apply (contains_suffix "request " "timed out") in E. now rewrite E.
  - now rewrite orb_false_r.
Qed.

(** X6. Among the three tests for a timed-out indicator the third never
    decides: an output that contains "request timed out" contains
    "timed out". So a failed probe gets the reason TIMEOUT exactly when
    its output, in lower case, contains "timed out" or "timeout". *)
Theorem request_timed_out_subsumed rc out ms t :
  rc <> 0 ->
  (reason (_interpret rc out ms t) = "TIMEOUT"
   <-> contains "timed out" (lower out) || contains "timeout" (lower out) = true).
Proof.
  intros Hrc. rewrite interpret_nonzero by assumption. cbn [reason].
  rewrite timeout_indicator_two_tests.
  destruct (contains "timed out" (lower out) || contains "timeout" (lower out)).
  - split; reflexivity.
  - destruct (unreachable_indicator out); split; discriminate.
Qed.

Lemma request_timed_out_subsumed_witness :
  reason (_interpret 1 "PING: Request Timed Out." 0 1000) = "TIMEOUT"
  <-> contains "timed out" (lower "PING: Request Timed Out.")
      || contains "timeout" (lower "PING: Request Timed Out.") = true.
Proof. apply request_timed_out_subsumed. discriminate. Defined.



(** ** core/monitor.py: more on the scheduler *)

(** X9. After ensure_structures every target of the list has an outage
    state; a state that existed is kept as it is (a target that is DOWN
    stays DOWN), a missing one starts UP, an alias of no target gets
    none; calling it again changes nothing. *)
Theorem ensure_structures_states st a :
  outage_states (ensure_structures st) !! a
  = match outage_states st !! a with
    | Some o => Some o
    | None => if has_alias a (targets st) then Some OutageState_init else None
    end
  /\ ensure_structures (ensure_structures st) = ensure_structures st.
Proof.
  split.
  - unfold ensure_structures; cbn [outage_states]. apply fold_ensure_lookup.
  - unfold ensure_structures; cbn [targets concurrency jitter_ms display_mode
      notifications_enabled sound_on_down outage_states _sem queue
      thread_safe_queue].
    f_equal; [|now destruct (_sem st)].
    apply fold_ensure_fixed. intros t Ht.
    rewrite fold_ensure_lookup, (has_alias_in _ _ Ht).
    now destruct (outage_states st !! alias t).
Qed.

Lemma process_result_frame target st result :
  let st' := fst (process_result target st result) in
  outage_states st'
    = fold_left ensure_outage (targets st)
        (<[alias target := mkOutageState (if success result then UP else DOWN)]>
           (outage_states st))
  /\ (targets st', concurrency st', jitter_ms st', display_mode st',
      notifications_enabled st', sound_on_down st')
     = (targets st, concurrency st, jitter_ms st, display_mode st,
        notifications_enabled st, sound_on_down st)
  /\ _sem st' = Some (sem_capacity st)
  /\ exists u,
       queue st' = (queue st ++ [u])%list
       /\ thread_safe_queue st'
          = match thread_safe_queue st with
            | Some q => Some (q ++ [u])%list
            | None => None
            end.
Proof.
  destruct st as [ts c j dm ne sd os sm q tq], result as [succ lat rsn].
  unfold process_result, sem_capacity; cbn.
  destruct (os !! alias target) as [[[]]|] eqn:E; destruct succ; cbn;
    rewrite ?insert_insert_eq; (split; [reflexivity|]); (split; [reflexivity|]);
    (split; [now destruct sm|]); eexists; split; reflexivity.
Qed.

Lemma outage_of_after_cycle target st result :
  outage_of (fst (process_result target st result)) (alias target)
  = mkOutageState (if success result then UP else DOWN).
Proof.
  destruct (process_result_frame target st result) as (Hos & _).
  unfold outage_of. now rewrite Hos, fold_ensure_lookup, lookup_insert_eq.
Qed.

(** X10. After the part of a cycle that follows the probe, the outage
    state of the cycle's own alias is DOWN after a failure and UP after a
    success, whatever it was; every other alias that had a state keeps
    it, and a listed target without one gets a fresh UP state (reading
    the queue calls ensure_structures); no setting changes, the semaphore
    exists with the value it had or else the current limit, and the same
    one update is appended to the queue and, when there is one, to the
    mirror queue. *)
Theorem cycle_frame target st result :
  let st' := fst (process_result target st result) in
  (forall a,
     outage_states st' !! a
     = if String.eqb a (alias target)
       then Some (mkOutageState (if success result then UP else DOWN))
       else match outage_states st !! a with
            | Some o => Some o
            | None =>
                if has_alias a (targets st) then Some OutageState_init else None
            end)
  /\ (targets st', concurrency st', jitter_ms st', display_mode st',
      notifications_enabled st', sound_on_down st')
     = (targets st, concurrency st, jitter_ms st, display_mode st,
        notifications_enabled st, sound_on_down st)
  /\ _sem st' = Some (sem_capacity st)
  /\ exists u,
       queue st' = (queue st ++ [u])%list
       /\ thread_safe_queue st'
          = match thread_safe_queue st with
            | Some q => Some (q ++ [u])%list
            | None => None
            end.
Proof.
  cbn zeta.
  destruct (process_result_frame target st result) as (Hos & Hset & Hsem & Hq).
  split; [|auto].
  intros a. rewrite Hos, fold_ensure_lookup.
  destruct (String.eqb_spec a (alias target)) as [->|Hne].
  - now rewrite lookup_insert_eq.
  - rewrite lookup_insert_ne by congruence. reflexivity.
Qed.

Example cycle_creates_missing_states :
  let st' := fst (process_result example_target
                    (default_state [example_target;
                                    mkTarget "dns" "8.8.8.8" 60 1000 true])
                    (mkPingResult false None "TIMEOUT")) in
  outage_states st' !! "gw" = Some (mkOutageState DOWN)
  /\ outage_states st' !! "dns" = Some (mkOutageState UP).
Proof. vm_compute. split; reflexivity. Qed.

Lemma process_result_logs target st result :
  List.filter is_LogInfo (snd (process_result target st result))
  = LogInfo (ping_line target result)
    :: (if cycle_flag target st result
        then [LogInfo (transition_line target result)]
        else []).
Proof.
  destruct st as [ts c j dm ne sd os q tq], result as [succ lat rsn].
  unfold process_result, cycle_flag, outage_of, ping_line, transition_line; cbn.
  destruct (os !! alias target) as [[[]]|]; destruct succ, ne, sd; reflexivity.
Qed.

(** X11. Every cycle logs its probe, and logs a change of state exactly
    when the state machine reports one (first failure of an outage, or
    recovery): once, and also when notifications are disabled. *)
Theorem transitions_are_logged target st result :
  List.filter is_LogInfo (snd (process_result target st result))
  = LogInfo (ping_line target result)
    :: (if cycle_flag target st result
        then [LogInfo (transition_line target result)]
        else [])
  /\ (cycle_flag target st result = true
      <-> _state (outage_of st (alias target))
          <> _state (outage_of (fst (process_result target st result)) (alias target))).
Proof.
  split; [apply process_result_logs|].
  rewrite outage_of_after_cycle. cbn [_state].
  unfold cycle_flag, record_success, record_failure.
  destruct (outage_of st (alias target)) as [[]], (success result); cbn;
    split; congruence.
Qed.















Example signalling_counts :
  let r := schedule_target false example_target (default_state [example_target]) 0
             [cycle_down; cycle_down; cycle_up; cycle_down] in
  count_events is_sound_notify (result_trace r) = 2%nat
  /\ count_events (is_recovery_notify "gw") (result_trace r) = 1%nat
  /\ count_events is_Notify (result_trace r) = 4%nat.
Proof. vm_compute. repeat split. Qed.



Example cancelled_probe_publishes_nothing :
  let r := schedule_target false example_target (default_state [example_target]) 0
             [cycle_up; cycle_cancelled; cycle_up] in
  List.length (queue (result_state r)) = 1%nat
  /\ count_events is_Probe (result_trace r) = 2%nat
  /\ probe_aborted r = 1%nat.
Proof. vm_compute. repeat split. Qed.

Lemma schedule_loop_final win32 a rest : forall pre st tr,
  at_boundary (schedule_loop win32 a st tr pre) = false ->
  schedule_loop win32 a st tr (pre ++ rest) = schedule_loop win32 a st tr pre.
Proof.
  induction pre as [|p pre IH]; intros st tr H; [discriminate H|].
  cbn [app schedule_loop] in *.
  destruct (resolve a _) as [c|]; [|reflexivity].
  destruct (negb (enabled c)); [reflexivity|].
  destruct (run_one_target _ _ _ _) as [[st2 evs]|x]; [|reflexivity].
  destruct (randint _ _ _) as [j|x]; [|reflexivity].
  now apply IH.
Qed.

(** X14. A polling loop that has ended, by returning for a removed or
    disabled target or by an exception, stays ended: whatever the later
    cycles bring, also the same target enabled again, it probes and
    publishes nothing more. *)
Theorem ended_loop_stays_ended win32 target st rand0 pre rest :
  at_boundary (schedule_target win32 target st rand0 pre) = false ->
  schedule_target win32 target st rand0 (pre ++ rest)
  = schedule_target win32 target st rand0 pre.
Proof.
  unfold schedule_target. destruct (randint _ _ _) as [j|x]; [|reflexivity].
  apply schedule_loop_final.
Qed.

Lemma ended_loop_stays_ended_witness :
  schedule_target false example_target (default_state [example_target]) 0
    ([cycle_up; cycle_disabled] ++ [cycle_up; cycle_up])
  = schedule_target false example_target (default_state [example_target]) 0
      [cycle_up; cycle_disabled].
Proof.
  apply (ended_loop_stays_ended false example_target
           (default_state [example_target]) 0 [cycle_up; cycle_disabled]
           [cycle_up; cycle_up]).
  vm_compute. reflexivity.
Defined.

Lemma schedule_loop_extends win32 a envs : forall st tr,
  exists ext, result_trace (schedule_loop win32 a st tr envs) = (tr ++ ext)%list.
Proof.
  induction envs as [|e rest IH]; intros st tr; cbn [schedule_loop].
  - exists []. cbn. now rewrite app_nil_r.
  - destruct (resolve a _) as [c|]; [|exists []; cbn; now rewrite app_nil_r].
    destruct (negb (enabled c)); [exists []; cbn; now rewrite app_nil_r|].
    destruct (run_one_target _ _ _ _) as [[st2 evs]|x]; [|cbn; eauto].
    destruct (randint _ _ _) as [j|x]; [|cbn; eauto].
    destruct (IH st2 (tr ++ evs ++ [Sleep (inject_Z (interval c) + inject_Z j / 1000)])%list)
      as (ext & ->).
    rewrite <- app_assoc. eauto.
Qed.

(** X15. A polling task begins by sleeping a jitter drawn from the
    configured range: with min <= max its first event is a sleep of
    between min and max milliseconds, before any probe. With min > max
    the draw raises ValueError, and the task fails at once without
    probing or publishing anything, whatever its target. *)
Theorem initial_jitter win32 target st rand0 envs :
  (fst (jitter_ms st) <= snd (jitter_ms st) ->
   exists j, fst (jitter_ms st) <= j <= snd (jitter_ms st)
     /\ first_event (result_trace (schedule_target win32 target st rand0 envs))
        = Some (Sleep (inject_Z j / 1000)))
  /\ (snd (jitter_ms st) < fst (jitter_ms st) ->
      schedule_target win32 target st rand0 envs
      = Failed (ExceptionSub "ValueError" None) st []).
Proof.
  unfold schedule_target, randint. split; intros H.
  - destruct (Z.leb_spec (fst (jitter_ms st)) (snd (jitter_ms st))) as [_|Hlt]; [|lia].
    set (j := fst (jitter_ms st)
              + rand0 mod (snd (jitter_ms st) - fst (jitter_ms st) + 1)).
    exists j. split.
    + assert (0 <= rand0 mod (snd (jitter_ms st) - fst (jitter_ms st) + 1)
              < snd (jitter_ms st) - fst (jitter_ms st) + 1)
        by (apply Z.mod_pos_bound; lia).
      unfold j. lia.
    + destruct (schedule_loop_extends win32 (alias target) envs st
                  [Sleep (inject_Z j / 1000)]) as (ext & ->).
      reflexivity.
  - destruct (Z.leb_spec (fst (jitter_ms st)) (snd (jitter_ms st))) as [Hle|_]; [lia|].
    reflexivity.
Qed.

Lemma initial_jitter_witness :
  (exists j, 0 <= j <= 300
     /\ first_event (result_trace
          (schedule_target false example_target (default_state [example_target])
             12345 [cycle_up]))
        = Some (Sleep (inject_Z j / 1000)))
  /\ schedule_target false example_target (inverted_jitter_state [example_target])
       12345 [cycle_up]
     = Failed (ExceptionSub "ValueError" None)
         (inverted_jitter_state [example_target]) [].
Proof.
  split.
  - apply (proj1 (initial_jitter false example_target
                    (default_state [example_target]) 12345 [cycle_up])).
    cbn. lia.
  - apply (proj2 (initial_jitter false example_target
                    (inverted_jitter_state [example_target]) 12345 [cycle_up])).
    cbn. lia.
Defined.

(** ** Scheduler: what the semaphore bounds *)



Example mirror_queue_receives_update :
  let st' := fst (process_result example_target (gui_state [example_target])
                    (mkPingResult false None "TIMEOUT")) in
  map u_line (queue st') = ["gw - DOWN 408"]
  /\ thread_safe_queue st' = Some (queue st').
Proof. vm_compute. split; reflexivity. Qed.
